(** * Urban Sound Classifier: a shallow embedding of the wizard state
    container (App), the remote classification client
    (services/geminiService) and the visualization widget
    (components/Visualizer), with the properties of the specification.

  Conventions of the embedding.
  - A JavaScript string is the list of its UTF-16 code units
    ([list N]); [js "..."] writes an ASCII literal.
  - React state is a record; a [useState] setter is a function that
    replaces one field. Refs ([useRef]) are fields of the same record.
  - Browser objects that are shared and mutated (media streams, audio
    contexts, audio elements, object URLs) live in a store indexed by
    object identity; the components hold identities, never copies.
  - An asynchronous handler is split where the source suspends: the part
    run by the call, and the callback or continuation run later.
  - A [throw] and a rejected promise are the [Thrown] outcome. *)

From Stdlib Require Import String Ascii NArith.
From stdpp Require Import base option list.

Set Warnings "-register-all".

Local Open Scope N_scope.
Local Open Scope nat_scope.

(** ** JavaScript strings *)

Module JS.

Abbreviation jsstring := (list N).

Definition js (s : string) : jsstring :=
  map N_of_ascii (list_ascii_of_string s).

(** [s.endsWith(t)] *)
Definition endsWith (s t : jsstring) : bool :=
  bool_decide (length t ≤ length s)
  && bool_decide (drop (length s - length t) s = t).

(** [s.substring(a, b)] for non-negative integer arguments: both are
    clamped to the length and swapped when [a > b]. *)
Definition substring (s : jsstring) (a b : nat) : jsstring :=
  let a' := a `min` length s in
  let b' := b `min` length s in
  let lo := a' `min` b' in
  let hi := a' `max` b' in
  take (hi - lo) (drop lo s).

(** [s.split(sep)] for a separator of one code unit. The accumulator
    [cur] holds the current piece, reversed. *)
Fixpoint split_go (sep : N) (cur : jsstring) (s : jsstring)
  : list jsstring :=
  match s with
  | [] => [reverse cur]
  | c :: s' =>
      if N.eqb c sep then reverse cur :: split_go sep [] s'
      else split_go sep (c :: cur) s'
  end.

Definition split (s : jsstring) (sep : N) : list jsstring :=
  split_go sep [] s.

(** [s || d] on strings: the empty string is the only falsy one. *)
Definition or_default (s d : jsstring) : jsstring :=
  match s with [] => d | _ => s end.

(** Joining the lines of a template literal with line feeds. *)
Definition LF : N := 10%N.
Definition DQUOTE : N := 34%N.

Fixpoint unlines (ls : list jsstring) : jsstring :=
  match ls with
  | [] => []
  | [l] => l
  | l :: ls' => l ++ LF :: unlines ls'
  end.

Definition quoted (s : string) : jsstring := DQUOTE :: js s ++ [DQUOTE].

(** What a [throw] or a rejection carries. *)
Inductive Exception :=
| Error (message : jsstring)
| SyntaxError
| ProgressEvent
| Rejection (reason : jsstring).

Inductive Outcome (A : Type) :=
| Returned (a : A)
| Thrown (e : Exception).
Arguments Returned {A} a.
Arguments Thrown {A} e.

End JS.

(** ** Blobs and files *)

Module Blob.
Import JS.

Record t := mk { bytes : list N; type : jsstring }.

Definition size (b : t) : nat := length (bytes b).

(** The constructor lower-cases an ASCII type and replaces a type with a
    code unit outside U+0020..U+007E by the empty string. *)
Definition printable (c : N) : bool := N.leb 32 c && N.leb c 126.

Definition lower (c : N) : N :=
  if N.leb 65 c && N.leb c 90 then (c + 32)%N else c.

Definition normalize_type (ty : jsstring) : jsstring :=
  if forallb printable ty then map lower ty else [].

(** [new Blob(parts, { type })] with blob parts. *)
Definition new (parts : list t) (ty : jsstring) : t :=
  {| bytes := concat (map bytes parts); type := normalize_type ty |}.

End Blob.

Module File.
Import JS.

(** A [File] is a [Blob] with a name. *)
Record t := mk { name : jsstring; blob : Blob.t }.

Definition size (f : t) : nat := Blob.size (blob f).

End File.

(** ** JSON values and [JSON.parse]

  [JSON.parse] is the platform's; it is embedded as the JSON grammar
  (ECMA-404): a scanner that is a finite automaton over code units and
  a parser that is a stack automaton over tokens. Both are structural
  recursions, so [parse] is total. A number keeps its literal: the
  double it denotes is a function of the literal. An object keeps its
  members in source order; [get] reads the last one of a name, as
  property definition does. *)

Module JSON.
Import JS.

Inductive Value :=
| Null
| Bool (b : bool)
| Number (literal : jsstring)
| String (s : jsstring)
| Array (items : list Value)
| Object (members : list (jsstring * Value)).

Inductive Token :=
| TLBrace | TRBrace | TLBracket | TRBracket | TColon | TComma
| TString (s : jsstring)
| TNumber (literal : jsstring)
| TTrue | TFalse | TNull.

(** States of the number automaton: an optional minus; a zero, or a
    digit 1-9 and more digits; an optional fraction of a dot and at
    least one digit; an optional exponent of e or E, an optional sign
    and at least one digit. *)
Inductive NumState :=
| NMinus | NZero | NInt | NDot | NFrac | NExp | NExpSign | NExpDigits.

Inductive LexState :=
| LDefault
| LString (acc : jsstring)
| LEscape (acc : jsstring)
| LUnicode (acc : jsstring) (remaining : nat) (v : N)
| LNumber (st : NumState) (acc : jsstring)
| LLiteral (rest : jsstring) (tok : Token).

Definition is_digit (c : N) : bool := N.leb 48 c && N.leb c 57.
Definition is_digit19 (c : N) : bool := N.leb 49 c && N.leb c 57.
Definition is_ws (c : N) : bool :=
  N.eqb c 32 || N.eqb c 9 || N.eqb c 10 || N.eqb c 13.
Definition is_e (c : N) : bool := N.eqb c 101 || N.eqb c 69.
Definition is_sign (c : N) : bool := N.eqb c 43 || N.eqb c 45.

Definition hex_value (c : N) : option N :=
  if is_digit c then Some (c - 48)%N
  else if N.leb 65 c && N.leb c 70 then Some (c - 55)%N
  else if N.leb 97 c && N.leb c 102 then Some (c - 87)%N
  else None.

Definition num_step (st : NumState) (c : N) : option NumState :=
  match st with
  | NMinus =>
      if N.eqb c 48 then Some NZero
      else if is_digit19 c then Some NInt else None
  | NZero =>
      if N.eqb c 46 then Some NDot
      else if is_e c then Some NExp else None
  | NInt =>
      if is_digit c then Some NInt
      else if N.eqb c 46 then Some NDot
      else if is_e c then Some NExp else None
  | NDot => if is_digit c then Some NFrac else None
  | NFrac =>
      if is_digit c then Some NFrac
      else if is_e c then Some NExp else None
  | NExp =>
      if is_sign c then Some NExpSign
      else if is_digit c then Some NExpDigits else None
  | NExpSign => if is_digit c then Some NExpDigits else None
  | NExpDigits => if is_digit c then Some NExpDigits else None
  end.

Definition num_accepting (st : NumState) : bool :=
  match st with
  | NZero | NInt | NFrac | NExpDigits => true
  | NMinus | NDot | NExp | NExpSign => false
  end.

(** A code unit read between tokens. *)
Definition lex_start (c : N) : option (LexState * list Token) :=
  if is_ws c then Some (LDefault, [])
  else if N.eqb c 123 then Some (LDefault, [TLBrace])
  else if N.eqb c 125 then Some (LDefault, [TRBrace])
  else if N.eqb c 91 then Some (LDefault, [TLBracket])
  else if N.eqb c 93 then Some (LDefault, [TRBracket])
  else if N.eqb c 58 then Some (LDefault, [TColon])
  else if N.eqb c 44 then Some (LDefault, [TComma])
  else if N.eqb c DQUOTE then Some (LString [], [])
  else if N.eqb c 45 then Some (LNumber NMinus [c], [])
  else if N.eqb c 48 then Some (LNumber NZero [c], [])
  else if is_digit19 c then Some (LNumber NInt [c], [])
  else if N.eqb c 116 then Some (LLiteral (js "rue") TTrue, [])
  else if N.eqb c 102 then Some (LLiteral (js "alse") TFalse, [])
  else if N.eqb c 110 then Some (LLiteral (js "ull") TNull, [])
  else None.

Definition escape_value (c : N) : option N :=
  if N.eqb c DQUOTE then Some DQUOTE
  else if N.eqb c 92 then Some 92%N
  else if N.eqb c 47 then Some 47%N
  else if N.eqb c 98 then Some 8%N
  else if N.eqb c 102 then Some 12%N
  else if N.eqb c 110 then Some 10%N
  else if N.eqb c 114 then Some 13%N
  else if N.eqb c 116 then Some 9%N
  else None.

Definition lex_step (st : LexState) (c : N)
  : option (LexState * list Token) :=
  match st with
  | LDefault => lex_start c
  | LString acc =>
      if N.eqb c DQUOTE then Some (LDefault, [TString (reverse acc)])
      else if N.eqb c 92 then Some (LEscape acc, [])
      else if N.ltb c 32 then None
      else Some (LString (c :: acc), [])
  | LEscape acc =>
      if N.eqb c 117 then Some (LUnicode acc 4 0%N, [])
      else match escape_value c with
           | Some u => Some (LString (u :: acc), [])
           | None => None
           end
  | LUnicode acc k v =>
      match hex_value c with
      | None => None
      | Some d =>
          let v' := (16 * v + d)%N in
          match k with
          | 0 | 1 => Some (LString (v' :: acc), [])
          | S k' => Some (LUnicode acc k' v', [])
          end
      end
  | LNumber n acc =>
      match num_step n c with
      | Some n' => Some (LNumber n' (c :: acc), [])
      | None =>
          if num_accepting n then
            match lex_start c with
            | Some (st', toks) => Some (st', TNumber (reverse acc) :: toks)
            | None => None
            end
          else None
      end
  | LLiteral rest tok =>
      match rest with
      | [] => None
      | r :: rest' =>
          if N.eqb c r then
            match rest' with
            | [] => Some (LDefault, [tok])
            | _ => Some (LLiteral rest' tok, [])
            end
          else None
      end
  end.

Definition lex_end (st : LexState) : option (list Token) :=
  match st with
  | LDefault => Some []
  | LNumber n acc =>
      if num_accepting n then Some [TNumber (reverse acc)] else None
  | _ => None
  end.

Fixpoint lex (st : LexState) (s : jsstring) : option (list Token) :=
  match s with
  | [] => lex_end st
  | c :: s' =>
      match lex_step st c with
      | None => None
      | Some (st', toks) =>
          match lex st' s' with
          | None => None
          | Some more => Some (toks ++ more)
          end
      end
  end.

(** Containers under construction, innermost first; members and items
    are kept reversed. *)
Inductive Frame :=
| FArray (items : list Value)
| FObject (members : list (jsstring * Value)) (key : option jsstring).

Inductive Mode :=
| MValue          (* a value *)
| MFirstItem      (* after '[': a value or ']' *)
| MFirstKey       (* after '{': a key or '}' *)
| MKey            (* after ',' in an object: a key *)
| MColon          (* after a key *)
| MNext           (* after a value in a container: ',' or the close *)
| MDone (v : Value).

Definition deliver (v : Value) (stack : list Frame)
  : option (list Frame * Mode) :=
  match stack with
  | [] => Some ([], MDone v)
  | FArray items :: stack' => Some (FArray (v :: items) :: stack', MNext)
  | FObject members (Some k) :: stack' =>
      Some (FObject ((k, v) :: members) None :: stack', MNext)
  | FObject _ None :: _ => None
  end.

Definition scalar (t : Token) : option Value :=
  match t with
  | TString s => Some (String s)
  | TNumber l => Some (Number l)
  | TTrue => Some (Bool true)
  | TFalse => Some (Bool false)
  | TNull => Some Null
  | _ => None
  end.

Definition open_value (t : Token) (stack : list Frame)
  : option (list Frame * Mode) :=
  match t with
  | TLBracket => Some (FArray [] :: stack, MFirstItem)
  | TLBrace => Some (FObject [] None :: stack, MFirstKey)
  | _ => match scalar t with
         | Some v => deliver v stack
         | None => None
         end
  end.

Definition close_array (stack : list Frame) : option (list Frame * Mode) :=
  match stack with
  | FArray items :: stack' => deliver (Array (reverse items)) stack'
  | _ => None
  end.

Definition close_object (stack : list Frame) : option (list Frame * Mode) :=
  match stack with
  | FObject members None :: stack' =>
      deliver (Object (reverse members)) stack'
  | _ => None
  end.

Definition take_key (t : Token) (stack : list Frame)
  : option (list Frame * Mode) :=
  match t, stack with
  | TString k, FObject members None :: stack' =>
      Some (FObject members (Some k) :: stack', MColon)
  | _, _ => None
  end.

Definition parse_step (stack : list Frame) (m : Mode) (t : Token)
  : option (list Frame * Mode) :=
  match m with
  | MValue => open_value t stack
  | MFirstItem =>
      match t with
      | TRBracket => close_array stack
      | _ => open_value t stack
      end
  | MFirstKey =>
      match t with
      | TRBrace => close_object stack
      | _ => take_key t stack
      end
  | MKey => take_key t stack
  | MColon =>
      match t with
      | TColon => Some (stack, MValue)
      | _ => None
      end
  | MNext =>
      match t, stack with
      | TComma, FArray _ :: _ => Some (stack, MValue)
      | TComma, FObject _ None :: _ => Some (stack, MKey)
      | TRBracket, _ => close_array stack
      | TRBrace, _ => close_object stack
      | _, _ => None
      end
  | MDone _ => None
  end.

Fixpoint parse_tokens (stack : list Frame) (m : Mode) (ts : list Token)
  : option Value :=
  match ts with
  | [] => match m with MDone v => Some v | _ => None end
  | t :: ts' =>
      match parse_step stack m t with
      | None => None
      | Some (stack', m') => parse_tokens stack' m' ts'
      end
  end.

(** [JSON.parse(text)]: [None] is the [SyntaxError]. *)
Definition parse (text : jsstring) : option Value :=
  match lex LDefault text with
  | None => None
  | Some ts => parse_tokens [] MValue ts
  end.

(** Property read [o.k] on a parsed value: [None] is [undefined]. *)
Fixpoint lookup_member (k : jsstring) (ms : list (jsstring * Value))
  : option Value :=
  match ms with
  | [] => None
  | (k', v) :: ms' =>
      match lookup_member k ms' with
      | Some v' => Some v'
      | None => if bool_decide (k' = k) then Some v else None
      end
  end.

Definition get (v : Value) (k : jsstring) : option Value :=
  match v with
  | Object ms => lookup_member k ms
  | _ => None
  end.

End JSON.

(** ** The remote classification client (services/geminiService) *)

Module Gemini.
Import JS.

(** The request of [ai.models.generateContent]. *)
Record InlineData := { mimeType : jsstring; data : option jsstring }.

Inductive Part :=
| InlinePart (inlineData : InlineData)
| TextPart (text : jsstring).

Inductive Schema :=
| STRING
| NUMBER
| ARRAY (items : Schema)
| OBJECT (properties : list (jsstring * Schema)).

Record Config := { responseMimeType : jsstring; responseSchema : Schema }.

Record Request := { model : jsstring; parts : list Part; config : Config }.

(** The reply, as far as the client reads it: [response.text], absent
    when the reply has no text part. *)
Record Response := { text : option jsstring }.

(** What the client cannot decide: the outcome of [FileReader] on a blob
    ([None] is the reader's error event) and of the hosted model on a
    request. *)
Record Platform := {
  readAsDataURL : Blob.t -> option jsstring;
  generateContent : Request -> Outcome Response;
}.

(** Computations that may throw and that log the outbound requests. *)
Definition Eff (A : Type) : Type := list Request -> Outcome A * list Request.

Definition ret {A} (a : A) : Eff A := fun log => (Returned a, log).

Definition throw {A} (e : Exception) : Eff A := fun log => (Thrown e, log).

Definition bind {A B} (m : Eff A) (k : A -> Eff B) : Eff B :=
  fun log =>
    match m log with
    | (Returned a, log') => k a log'
    | (Thrown e, log') => (Thrown e, log')
    end.

Definition try_catch {A} (body : Eff A) (handler : Exception -> Eff A)
  : Eff A :=
  fun log =>
    match body log with
    | (Returned a, log') => (Returned a, log')
    | (Thrown e, log') => handler e log'
    end.

Definition send (env : Platform) (req : Request) : Eff Response :=
  fun log => (generateContent env req, log ++ [req]).

Definition run {A} (m : Eff A) : Outcome A * list Request := m [].

Declare Scope eff_scope.
Delimit Scope eff_scope with eff.
Notation "'await' x <- m 'in' k" := (bind m (fun x => k))
  (at level 10, x name, m at level 100, k at level 200) : eff_scope.

(** [blobToBase64]: the data URL without its prefix, that is, the second
    piece of the split at commas ([None] is [undefined]). *)
Definition blobToBase64 (env : Platform) (blob : Blob.t)
  : Eff (option jsstring) :=
  match readAsDataURL env blob with
  | Some result => ret (split result 44%N !! 1)
  | None => throw ProgressEvent
  end.

Definition modelId : jsstring := js "gemini-2.5-flash".

Definition prompt_head : jsstring :=
  unlines [
    js "";
    js "    You are an expert Urban Sound Classifier system. ";
    js "    Analyze the provided audio clip. ";
    js "    ";
    js "    The user is interested in a classification model described by this notebook context (optional reference):";
    js "    " ].

Definition prompt_tail : jsstring :=
  unlines [
    js "... (truncated for brevity)";
    js "";
    js "    Classify the audio into one of these urban categories:";
    js "    - Siren";
    js "    - Dog Bark";
    js "    - Drilling";
    js "    - Car Horn";
    js "    - Street Music";
    js "    - Engine Idling";
    js "    - Gun Shot";
    js "    - Jackhammer";
    js "    - Children Playing";
    js "    - Air Conditioner";
    js "    - Traffic";
    js "    ";
    js "    Return a JSON object with:";
    js "    1. " ++ quoted "label" ++ js ": The most likely category.";
    js "    2. " ++ quoted "accuracy"
      ++ js ": A confidence score between 0 and 100.";
    js "    3. " ++ quoted "probabilities"
      ++ js ": An array of objects with " ++ quoted "name"
      ++ js " (category) and " ++ quoted "value"
      ++ js " (percentage 0-100) for the top 5 classes.";
    js "    4. " ++ quoted "explanation"
      ++ js ": A brief, technical explanation of the audio features (spectral centroid, rhythm, etc.) that led to this decision.";
    js "  " ].

(** The template literal [prompt]. *)
Definition prompt (modelContext : jsstring) : jsstring :=
  prompt_head ++ substring modelContext 0 2000 ++ prompt_tail.

Definition responseSchema_ : Schema :=
  OBJECT [
    (js "label", STRING);
    (js "accuracy", NUMBER);
    (js "explanation", STRING);
    (js "probabilities",
      ARRAY (OBJECT [ (js "name", STRING); (js "value", NUMBER) ])) ].

Definition request (audioBlob : Blob.t) (base64Audio : option jsstring)
    (modelContext : jsstring) : Request :=
  {| model := modelId;
     parts := [
       InlinePart {| mimeType := or_default (Blob.type audioBlob)
                                            (js "audio/wav");
                     data := base64Audio |};
       TextPart (prompt modelContext) ];
     config := {| responseMimeType := js "application/json";
                  responseSchema := responseSchema_ |} |}.

(** The texts and the inline MIME types a request carries. *)
Definition texts (r : Request) : list jsstring :=
  omap (fun p => match p with TextPart t => Some t | _ => None end) (parts r).

Definition mimeTypes (r : Request) : list jsstring :=
  omap (fun p => match p with
                 | InlinePart d => Some (mimeType d)
                 | _ => None
                 end) (parts r).

Definition no_response : Exception := Error (js "No response from Gemini").

Definition classification_failed : Exception :=
  Error (js "Failed to classify audio. Please try again.").

(** [classifyAudioWithGemini]. The cast [as ClassificationResult] does
    nothing at run time: the value returned is the parsed one. The
    console diagnostic of the handler is not modelled. *)
Definition classifyAudioWithGemini (env : Platform) (audioBlob : Blob.t)
    (modelContext : jsstring) : Eff JSON.Value :=
  (await base64Audio <- blobToBase64 env audioBlob in
   try_catch
     (await response <-
        send env (request audioBlob base64Audio modelContext) in
      match text response with
      | None | Some [] => throw no_response
      | Some t =>
          match JSON.parse t with
          | Some v => ret v
          | None => throw SyntaxError
          end
      end)
     (fun error => throw classification_failed))%eff.

(** The shape the interface [ClassificationResult] declares (types):
    [label] and [explanation] strings, [accuracy] a number,
    [probabilities] an array of objects with a string [name] and a
    number [value]. *)
Definition is_string (o : option JSON.Value) : bool :=
  match o with Some (JSON.String _) => true | _ => false end.

Definition is_number (o : option JSON.Value) : bool :=
  match o with Some (JSON.Number _) => true | _ => false end.

Definition is_probability (v : JSON.Value) : bool :=
  match v with
  | JSON.Object _ =>
      is_string (JSON.get v (js "name"))
      && is_number (JSON.get v (js "value"))
  | _ => false
  end.

Definition is_probabilities (o : option JSON.Value) : bool :=
  match o with
  | Some (JSON.Array items) => forallb is_probability items
  | _ => false
  end.

Definition is_ClassificationResult (v : JSON.Value) : bool :=
  is_string (JSON.get v (js "label"))
  && is_number (JSON.get v (js "accuracy"))
  && is_probabilities (JSON.get v (js "probabilities"))
  && is_string (JSON.get v (js "explanation")).

End Gemini.

(** ** Browser objects shared between the components

  An object is the index of its record in the store of its kind;
  creating one appends to the store. *)

Module Browser.

(** [MediaStreamTrack.readyState] *)
Inductive ReadyState := live | ended.

(** A [MediaRecorder]: the stream it records and whether its state is
    ["recording"] (otherwise ["inactive"]). *)
Record MediaRecorder := { recorded : nat; recording : bool }.

Inductive Connection :=
| StreamToAnalyser (stream : nat)
| ElementToAnalyser (element : nat)
| ElementToDestination (element : nat).

(** An [AudioContext] with the analyser created on it. *)
Record AudioContext := {
  closed : bool;
  fftSize : nat;
  graph : list Connection;
}.

(** An [HTMLAudioElement]: [src] is an object URL or empty; a handler
    is attached or null. *)
Record AudioElement := {
  paused : bool;
  src : option nat;
  onplay : bool;
  onpause : bool;
  onended : bool;
}.

Record World := {
  streams : list (list ReadyState);
  recorders : list MediaRecorder;
  contexts : list AudioContext;
  elements : list AudioElement;
  urls : list bool;          (* an object URL is [true] until revoked *)
  frames : list nat;         (* pending animation-frame requests *)
  next_frame : nat;          (* request ids are handed out from 1 *)
}.

Definition empty : World :=
  {| streams := []; recorders := []; contexts := []; elements := [];
     urls := []; frames := []; next_frame := 1 |}.

Definition set_streams (f : list (list ReadyState) -> list (list ReadyState))
    (w : World) : World :=
  {| streams := f (streams w); recorders := recorders w;
     contexts := contexts w; elements := elements w; urls := urls w;
     frames := frames w; next_frame := next_frame w |}.

Definition set_recorders (f : list MediaRecorder -> list MediaRecorder)
    (w : World) : World :=
  {| streams := streams w; recorders := f (recorders w);
     contexts := contexts w; elements := elements w; urls := urls w;
     frames := frames w; next_frame := next_frame w |}.

Definition set_contexts (f : list AudioContext -> list AudioContext)
    (w : World) : World :=
  {| streams := streams w; recorders := recorders w;
     contexts := f (contexts w); elements := elements w; urls := urls w;
     frames := frames w; next_frame := next_frame w |}.

Definition set_elements (f : list AudioElement -> list AudioElement)
    (w : World) : World :=
  {| streams := streams w; recorders := recorders w;
     contexts := contexts w; elements := f (elements w); urls := urls w;
     frames := frames w; next_frame := next_frame w |}.

Definition set_urls (f : list bool -> list bool) (w : World) : World :=
  {| streams := streams w; recorders := recorders w;
     contexts := contexts w; elements := elements w; urls := f (urls w);
     frames := frames w; next_frame := next_frame w |}.

Definition set_frames (f : list nat -> list nat) (n : nat) (w : World)
  : World :=
  {| streams := streams w; recorders := recorders w;
     contexts := contexts w; elements := elements w; urls := urls w;
     frames := f (frames w); next_frame := n |}.

(** [stream.getTracks().forEach(track => track.stop())] *)
Definition stop_tracks (stream : nat) (w : World) : World :=
  set_streams (alter (map (fun _ => ended)) stream) w.

(** The tracks of a stream ([[]] for an identity never handed out). *)
Definition getTracks (w : World) (stream : nat) : list ReadyState :=
  default [] (streams w !! stream).

Definition all_ended (ts : list ReadyState) : bool :=
  forallb (fun t => match t with ended => true | live => false end) ts.

(** [ctx.state !== 'closed'] *)
Definition is_open (w : World) (ctx : nat) : bool :=
  match contexts w !! ctx with
  | Some c => negb (closed c)
  | None => false
  end.

Definition close_context (ctx : nat) (w : World) : World :=
  set_contexts
    (alter (fun c => {| closed := true; fftSize := fftSize c;
                        graph := graph c |}) ctx) w.

Definition connect (ctx : nat) (e : Connection) (w : World) : World :=
  set_contexts
    (alter (fun c => {| closed := closed c; fftSize := fftSize c;
                        graph := graph c ++ [e] |}) ctx) w.

(** [requestAnimationFrame]: the new request's id and the world. *)
Definition requestAnimationFrame (w : World) : nat * World :=
  (next_frame w, set_frames (fun fs => fs ++ [next_frame w])
                            (S (next_frame w)) w).

Definition cancelAnimationFrame (id : nat) (w : World) : World :=
  set_frames (filter (fun i => i ≠ id)) (next_frame w) w.

(** [el.pause(); el.src = ""] *)
Definition silence (el : nat) (w : World) : World :=
  set_elements
    (alter (fun a => {| paused := true; src := None; onplay := onplay a;
                        onpause := onpause a; onended := onended a |}) el) w.

Definition detach_handlers (el : nat) (w : World) : World :=
  set_elements
    (alter (fun a => {| paused := paused a; src := src a; onplay := false;
                        onpause := false; onended := false |}) el) w.

Definition revokeObjectURL (url : nat) (w : World) : World :=
  set_urls (alter (fun _ => false) url) w.

End Browser.

(** ** The view and state container (App) *)

Module App.
Import JS Browser.

Inductive AppStep := UPLOAD_MODEL | INPUT_AUDIO | ANALYZING | RESULTS.

Definition AppStep_value (s : AppStep) : nat :=
  match s with
  | UPLOAD_MODEL => 0
  | INPUT_AUDIO => 1
  | ANALYZING => 2
  | RESULTS => 3
  end.

Module ModelMetadata.
Record t := mk { name : jsstring; size : nat; content : jsstring }.
End ModelMetadata.

Inductive Theme := dark | light.

(** The [useState] values and the two refs. [audioFile] holds the blob
    of a selected file or of a recording; the App reads no more of it.
    [result] holds whatever the client returned. *)
Record State := {
  currentStep : AppStep;
  modelData : option ModelMetadata.t;
  audioFile : option Blob.t;
  isRecording : bool;
  recordingStream : option nat;
  result : option JSON.Value;
  error : option jsstring;
  theme : Theme;
  mediaRecorderRef : option nat;
  chunksRef : list Blob.t;
}.

Definition initial : State :=
  {| currentStep := UPLOAD_MODEL; modelData := None; audioFile := None;
     isRecording := false; recordingStream := None; result := None;
     error := None; theme := dark; mediaRecorderRef := None;
     chunksRef := [] |}.

Definition setCurrentStep (x : AppStep) (s : State) : State :=
  {| currentStep := x; modelData := modelData s; audioFile := audioFile s;
     isRecording := isRecording s; recordingStream := recordingStream s;
     result := result s; error := error s; theme := theme s;
     mediaRecorderRef := mediaRecorderRef s; chunksRef := chunksRef s |}.

Definition setModelData (x : option ModelMetadata.t) (s : State) : State :=
  {| currentStep := currentStep s; modelData := x; audioFile := audioFile s;
     isRecording := isRecording s; recordingStream := recordingStream s;
     result := result s; error := error s; theme := theme s;
     mediaRecorderRef := mediaRecorderRef s; chunksRef := chunksRef s |}.

Definition setAudioFile (x : option Blob.t) (s : State) : State :=
  {| currentStep := currentStep s; modelData := modelData s; audioFile := x;
     isRecording := isRecording s; recordingStream := recordingStream s;
     result := result s; error := error s; theme := theme s;
     mediaRecorderRef := mediaRecorderRef s; chunksRef := chunksRef s |}.

Definition setIsRecording (x : bool) (s : State) : State :=
  {| currentStep := currentStep s; modelData := modelData s;
     audioFile := audioFile s; isRecording := x;
     recordingStream := recordingStream s; result := result s;
     error := error s; theme := theme s;
     mediaRecorderRef := mediaRecorderRef s; chunksRef := chunksRef s |}.

Definition setRecordingStream (x : option nat) (s : State) : State :=
  {| currentStep := currentStep s; modelData := modelData s;
     audioFile := audioFile s; isRecording := isRecording s;
     recordingStream := x; result := result s; error := error s;
     theme := theme s; mediaRecorderRef := mediaRecorderRef s;
     chunksRef := chunksRef s |}.

Definition setResult (x : option JSON.Value) (s : State) : State :=
  {| currentStep := currentStep s; modelData := modelData s;
     audioFile := audioFile s; isRecording := isRecording s;
     recordingStream := recordingStream s; result := x; error := error s;
     theme := theme s; mediaRecorderRef := mediaRecorderRef s;
     chunksRef := chunksRef s |}.

Definition setError (x : option jsstring) (s : State) : State :=
  {| currentStep := currentStep s; modelData := modelData s;
     audioFile := audioFile s; isRecording := isRecording s;
     recordingStream := recordingStream s; result := result s; error := x;
     theme := theme s; mediaRecorderRef := mediaRecorderRef s;
     chunksRef := chunksRef s |}.

Definition setTheme (x : Theme) (s : State) : State :=
  {| currentStep := currentStep s; modelData := modelData s;
     audioFile := audioFile s; isRecording := isRecording s;
     recordingStream := recordingStream s; result := result s;
     error := error s; theme := x;
     mediaRecorderRef := mediaRecorderRef s; chunksRef := chunksRef s |}.

Definition set_mediaRecorderRef (x : option nat) (s : State) : State :=
  {| currentStep := currentStep s; modelData := modelData s;
     audioFile := audioFile s; isRecording := isRecording s;
     recordingStream := recordingStream s; result := result s;
     error := error s; theme := theme s;
     mediaRecorderRef := x; chunksRef := chunksRef s |}.

Definition set_chunksRef (x : list Blob.t) (s : State) : State :=
  {| currentStep := currentStep s; modelData := modelData s;
     audioFile := audioFile s; isRecording := isRecording s;
     recordingStream := recordingStream s; result := result s;
     error := error s; theme := theme s;
     mediaRecorderRef := mediaRecorderRef s; chunksRef := x |}.

Definition toggleTheme (s : State) : State :=
  setTheme (match theme s with dark => light | light => dark end) s.

(** *** Step 1: model upload *)

Definition invalid_file_type : jsstring :=
  js "Please upload a valid .ipynb file.".

(** [handleModelUpload] on the event's file list: the state it leaves
    and the file whose reading as text it started, if any. *)
Definition handleModelUpload (files : list File.t) (s : State)
  : State * option File.t :=
  match head files with
  | Some file =>
      if negb (endsWith (File.name file) (js ".ipynb"))
      then (setError (Some invalid_file_type) s, None)
      else (s, Some file)
  | None => (s, None)
  end.

(** [reader.onload], run when the text of [file] has been read. *)
Definition handleModelUpload_onload (file : File.t) (text : jsstring)
    (s : State) : State :=
  setCurrentStep INPUT_AUDIO
    (setError None
       (setModelData
          (Some {| ModelMetadata.name := File.name file;
                   ModelMetadata.size := File.size file;
                   ModelMetadata.content := text |}) s)).

(** *** Step 2: audio *)

Definition handleAudioUpload (files : list File.t) (s : State) : State :=
  match head files with
  | Some file => setError None (setAudioFile (Some (File.blob file)) s)
  | None => s
  end.

Definition microphone_denied : jsstring := js "Microphone access denied.".

(** The outcome of [getUserMedia] (a new stream of live tracks, or a
    rejection) and of constructing and starting the recorder. *)
Inductive UserMedia := Granted (tracks : nat) | Denied.
Inductive RecorderStart := Started | ConstructorThrows | StartThrows.

Definition startRecording (media : UserMedia) (rec : RecorderStart)
    (ws : World * State) : World * State :=
  let '(w, s) := ws in
  match media with
  | Denied => (w, setError (Some microphone_denied) s)
  | Granted n =>
      let stream := length (streams w) in
      let w1 := set_streams (fun l => l ++ [replicate n live]) w in
      let s1 :=
        setAudioFile None
          (setIsRecording true (setRecordingStream (Some stream) s)) in
      match rec with
      | ConstructorThrows => (w1, setError (Some microphone_denied) s1)
      | Started | StartThrows =>
          let mediaRecorder := length (recorders w1) in
          let w2 :=
            set_recorders
              (fun l => l ++ [{| recorded := stream; recording := false |}])
              w1 in
          let s2 :=
            set_chunksRef [] (set_mediaRecorderRef (Some mediaRecorder) s1) in
          match rec with
          | Started =>
              (set_recorders
                 (alter (fun r => {| recorded := recorded r;
                                     recording := true |}) mediaRecorder)
                 w2, s2)
          | _ => (w2, setError (Some microphone_denied) s2)
          end
      end
  end.

(** [mediaRecorder.ondataavailable] *)
Definition mediaRecorder_ondataavailable (data : Blob.t) (s : State)
  : State :=
  if bool_decide (0 < Blob.size data)
  then set_chunksRef (chunksRef s ++ [data]) s
  else s.

(** [mediaRecorder.onstop]; [stream] is the stream of the closure. *)
Definition mediaRecorder_onstop (stream : nat) (ws : World * State)
  : World * State :=
  let '(w, s) := ws in
  let blob := Blob.new (chunksRef s) (js "audio/webm") in
  (stop_tracks stream w, setRecordingStream None (setAudioFile (Some blob) s)).

(** [stopRecording]: the recorder whose stop task is queued, if any.
    [stop()] inactivates a recording recorder and does nothing on an
    inactive one. *)
Definition stopRecording (ws : World * State)
  : World * State * option nat :=
  let '(w, s) := ws in
  match mediaRecorderRef s with
  | Some r =>
      if isRecording s then
        match recorders w !! r with
        | Some {| recorded := st; recording := true |} =>
            (set_recorders
               (alter (fun r => {| recorded := recorded r;
                                   recording := false |}) r) w,
             setIsRecording false s, Some r)
        | _ => (w, setIsRecording false s, None)
        end
      else (w, s, None)
  | None => (w, s, None)
  end.

(** The stop task of recorder [r]: the data gathered since the last
    chunk is delivered, then the stop event. *)
Definition stop_task (r : nat) (data : Blob.t) (ws : World * State)
  : World * State :=
  let '(w, s) := ws in
  match recorders w !! r with
  | Some rec =>
      mediaRecorder_onstop (recorded rec)
        (w, mediaRecorder_ondataavailable data s)
  | None => (w, s)
  end.

(** The [dataavailable] events of a recording, in order. *)
Definition dataavailable_events (datas : list Blob.t) (s : State) : State :=
  foldl (fun st d => mediaRecorder_ondataavailable d st) s datas.

(** A whole recording: a granted start, the chunks delivered while
    recording, the stop button, and the stop task with the last data. *)
Definition record_session (n : nat) (datas : list Blob.t) (last : Blob.t)
    (ws : World * State) : World * State :=
  let '(w1, s1) := startRecording (Granted n) Started ws in
  let s2 := dataavailable_events datas s1 in
  match stopRecording (w1, s2) with
  | (w3, s3, Some r) => stop_task r last (w3, s3)
  | (w3, s3, None) => (w3, s3)
  end.

(** *** Step 3: analysis *)

Definition classification_failed : jsstring :=
  js "Classification failed. Please check your API key or internet connection.".

(** [runClassification] up to its [await]: [None] is the early return;
    otherwise the state left and the arguments of the remote call. *)
Definition runClassification_begin (s : State)
  : option (State * (Blob.t * jsstring)) :=
  match audioFile s, modelData s with
  | Some a, Some m =>
      Some (setCurrentStep ANALYZING s, (a, ModelMetadata.content m))
  | _, _ => None
  end.

(** [runClassification] from the settling of the remote call, on the
    state of that moment. *)
Definition runClassification_settle (r : Outcome JSON.Value) (s : State)
  : State :=
  match r with
  | Returned data => setCurrentStep RESULTS (setResult (Some data) s)
  | Thrown _ =>
      setCurrentStep INPUT_AUDIO (setError (Some classification_failed) s)
  end.

(** [runClassification] with nothing else happening during the call:
    the final state and the outbound requests made. *)
Definition runClassification (env : Gemini.Platform) (s : State)
  : State * list Gemini.Request :=
  match runClassification_begin s with
  | None => (s, [])
  | Some (s1, (a, c)) =>
      let '(r, log) := Gemini.run (Gemini.classifyAudioWithGemini env a c) in
      (runClassification_settle r s1, log)
  end.

Definition reset (s : State) : State :=
  setCurrentStep INPUT_AUDIO (setResult None (setAudioFile None s)).

(** The "Change" button of the audio view. *)
Definition changeModel (s : State) : State :=
  setAudioFile None (setCurrentStep UPLOAD_MODEL (setModelData None s)).

End App.

(** ** The capture and visualization widget (components/Visualizer)

  The effect calls the asynchronous [initVisualizer] without awaiting
  it, so the effect returns when [initVisualizer] ends or reaches its
  [await]; what follows the [await] runs later, and the cleanup may
  run in between. [initVisualizer_start] is the part run by the call,
  [initVisualizer_resume] the part after the [await]. When no context
  of a previous run reads as open (as at the first mount) there is no
  [await] and the call runs [initVisualizer] to its end.
  In [Browser.AudioContext], [closed] says that [close()] has been
  called; a second [close()] is rejected and the rejection is caught or
  ignored where the source calls it, so it changes nothing.
  Painting the canvas changes nothing the model tracks and is left out;
  the canvas always yields a 2d context. *)

Module Visualizer.
Import JS Browser.

Record Props := {
  stream : option nat;
  audioFile : option Blob.t;
  isRecording : bool;
}.

(** The refs and the [isPlaying] state of the component. [canvasRef]
    is [true] while the canvas is mounted; [analyserRef] names the
    context the analyser was created on. *)
Record State := {
  canvasRef : bool;
  audioContextRef : option nat;
  analyserRef : option nat;
  requestRef : option nat;
  audioElementRef : option nat;
  isPlaying : bool;
}.

(** The variables of one run of the effect, shared by [initVisualizer]
    and the cleanup it returns. *)
Record Closure := {
  audioUrl : option nat;
  audioEl : option nat;
  mounted : bool;
}.

Definition mount : State :=
  {| canvasRef := true; audioContextRef := None; analyserRef := None;
     requestRef := None; audioElementRef := None; isPlaying := false |}.

Definition fresh : Closure :=
  {| audioUrl := None; audioEl := None; mounted := true |}.

Definition set_contextRefs (ctx : nat) (v : State) : State :=
  {| canvasRef := canvasRef v; audioContextRef := Some ctx;
     analyserRef := Some ctx; requestRef := requestRef v;
     audioElementRef := audioElementRef v; isPlaying := isPlaying v |}.

Definition set_requestRef (id : nat) (v : State) : State :=
  {| canvasRef := canvasRef v; audioContextRef := audioContextRef v;
     analyserRef := analyserRef v; requestRef := Some id;
     audioElementRef := audioElementRef v; isPlaying := isPlaying v |}.

Definition set_audioElementRef (el : nat) (v : State) : State :=
  {| canvasRef := canvasRef v; audioContextRef := audioContextRef v;
     analyserRef := analyserRef v; requestRef := requestRef v;
     audioElementRef := Some el; isPlaying := isPlaying v |}.

Definition setIsPlaying (b : bool) (v : State) : State :=
  {| canvasRef := canvasRef v; audioContextRef := audioContextRef v;
     analyserRef := analyserRef v; requestRef := requestRef v;
     audioElementRef := audioElementRef v; isPlaying := b |}.

(** [animate]: one frame; it requests the next one first. *)
Definition animate (wv : World * State) : World * State :=
  let '(w, v) := wv in
  let '(id, w') := requestAnimationFrame w in
  (w', set_requestRef id v).

Definition draw (wv : World * State) : World * State :=
  let '(w, v) := wv in
  if negb (canvasRef v) || negb (bool_decide (is_Some (analyserRef v)))
  then (w, v)
  else animate (w, v).

(** Closing the context a previous run left open. *)
Definition close_previous (w : World) (v : State) : World :=
  match audioContextRef v with
  | Some ctx => if is_open w ctx then close_context ctx w else w
  | None => w
  end.

(** [initVisualizer] from the line after its [await] (the test of
    [mounted]) to its end. *)
Definition initVisualizer_resume (p : Props) (wvc : World * State * Closure)
  : World * State * Closure :=
  let '(w, v, c) := wvc in
  if negb (mounted c) then (w, v, c) else
  let audioCtx := length (contexts w) in
  let w :=
    set_contexts
      (fun l => l ++ [{| closed := false; fftSize := 256; graph := [] |}])
      w in
  let v := set_contextRefs audioCtx v in
  match stream p, isRecording p, audioFile p with
  | Some s, true, _ =>
      (* createMediaStreamSource throws on a stream without audio track *)
      let '(w, v) :=
        match getTracks w s with
        | _ :: _ => (connect audioCtx (StreamToAnalyser s) w,
                     setIsPlaying true v)
        | [] => (w, v)
        end in
      let '(w, v) := if mounted c then draw (w, v) else (w, v) in
      (w, v, c)
  | _, false, Some file =>
      let w :=
        match audioElementRef v with
        | Some old => silence old w
        | None => w
        end in
      let url := length (urls w) in
      let w := set_urls (fun l => l ++ [true]) w in
      let el := length (elements w) in
      let w :=
        set_elements
          (fun l => l ++ [{| paused := true; src := Some url; onplay := true;
                             onpause := true; onended := true |}]) w in
      let v := set_audioElementRef el v in
      let w :=
        connect audioCtx (ElementToDestination el)
          (connect audioCtx (ElementToAnalyser el) w) in
      let '(w, v) := if mounted c then draw (w, v) else (w, v) in
      (w, v, {| audioUrl := Some url; audioEl := Some el;
                mounted := mounted c |})
  | _, _, _ =>
      (close_context audioCtx w, setIsPlaying false v, c)
  end.

(** How far a call of [initVisualizer] runs before it returns to the
    effect: to its end, or to its [await]. *)
Inductive Started :=
| Completed (r : World * State * Closure)
| Awaiting (r : World * State * Closure).

Definition state_of (s : Started) : World * State * Closure :=
  match s with Completed r | Awaiting r => r end.

(** The test before the [await]: is there a context of a previous run
    whose state does not read as closed? A browser may still report the
    old state of a context on which [close()] has been called
    ([lagging]). *)
Definition reads_open (lagging : bool) (w : World) (v : State) : bool :=
  match audioContextRef v with
  | Some ctx => is_open w ctx || lagging
  | None => false
  end.

(** [initVisualizer] as far as its call runs. At the [await], [close()]
    has been called on the previous context (a second call on a context
    already closing is rejected, and the rejection is caught). *)
Definition initVisualizer_start (lagging : bool) (p : Props)
    (wvc : World * State * Closure) : Started :=
  let '(w, v, c) := wvc in
  if negb (canvasRef v) then Completed (w, v, c) else
  if reads_open lagging w v then Awaiting (close_previous w v, v, c)
  else Completed (initVisualizer_resume p (w, v, c)).

(** The state in which the call returns, in a browser that reports a
    closed context at once. *)
Definition initVisualizer (p : Props) (wvc : World * State * Closure)
  : World * State * Closure :=
  state_of (initVisualizer_start false p wvc).

(** The cleanup function the effect returns. *)
Definition cleanup (wvc : World * State * Closure)
  : World * State * Closure :=
  let '(w, v, c) := wvc in
  let c' := {| audioUrl := audioUrl c; audioEl := audioEl c;
               mounted := false |} in
  let w :=
    match requestRef v with
    | Some id => if bool_decide (id ≠ 0) then cancelAnimationFrame id w else w
    | None => w
    end in
  let w :=
    match audioContextRef v with
    | Some ctx => if is_open w ctx then close_context ctx w else w
    | None => w
    end in
  let w :=
    match audioEl c with
    | Some el => detach_handlers el (silence el w)
    | None => w
    end in
  let w :=
    match audioUrl c with
    | Some url => revokeObjectURL url w
    | None => w
    end in
  (w, v, c').

(** One run of the effect for props [p], up to its return: a new
    closure, then the call of [initVisualizer]. *)
Definition effect_start (lagging : bool) (p : Props) (wv : World * State)
  : Started :=
  let '(w, v) := wv in initVisualizer_start lagging p (w, v, fresh).

(** The state in which the effect returns, in a browser that reports a
    closed context at once. *)
Definition effect (p : Props) (wv : World * State)
  : World * State * Closure :=
  let '(w, v) := wv in initVisualizer p (w, v, fresh).

(** The props the App renders the widget with. *)
Definition props_of (s : App.State) : Props :=
  {| stream := App.recordingStream s;
     audioFile := App.audioFile s;
     isRecording := App.isRecording s |}.

(** The widget is rendered in the audio view only. *)
Definition rendered (s : App.State) : bool :=
  match App.currentStep s with
  | App.INPUT_AUDIO | App.ANALYZING => true
  | _ => false
  end.

End Visualizer.

(** ** Concrete files, clips, platforms and states used by the examples *)

Module Samples.
Import JS.

Definition notes_txt : File.t :=
  {| File.name := js "notes.txt";
     File.blob := {| Blob.bytes := [104; 105]%N;
                     Blob.type := js "text/plain" |} |}.

Definition model_ipynb : File.t :=
  {| File.name := js "model.ipynb";
     File.blob := {| Blob.bytes := [123; 125]%N;
                     Blob.type := js "application/x-ipynb+json" |} |}.

Definition clip : Blob.t :=
  {| Blob.bytes := [82; 73; 70; 70]%N; Blob.type := js "audio/wav" |}.

Definition untyped_clip : Blob.t :=
  {| Blob.bytes := [82; 73; 70; 70]%N; Blob.type := [] |}.

Definition data_url : jsstring := js "data:audio/wav;base64,UklGRg==".

(** A platform whose reader succeeds and whose model answers [reply]. *)
Definition answering (reply : JS.Outcome Gemini.Response) : Gemini.Platform :=
  {| Gemini.readAsDataURL := fun _ => Some data_url;
     Gemini.generateContent := fun _ => reply |}.

Definition replying (text : option jsstring) : Gemini.Platform :=
  answering (Returned {| Gemini.text := text |}).

Definition offline : Gemini.Platform :=
  answering (Thrown (Rejection (js "fetch failed"))).

Definition unreadable : Gemini.Platform :=
  {| Gemini.readAsDataURL := fun _ => None;
     Gemini.generateContent := fun _ => Returned {| Gemini.text := None |} |}.

(** A complete reply of the model. *)
Definition siren_reply : jsstring :=
  js "{" ++ quoted "label" ++ js ": " ++ quoted "Siren" ++ js ", "
  ++ quoted "accuracy" ++ js ": 97.5, "
  ++ quoted "probabilities" ++ js ": [{" ++ quoted "name" ++ js ": "
  ++ quoted "Siren" ++ js ", " ++ quoted "value" ++ js ": 97.5}], "
  ++ quoted "explanation" ++ js ": " ++ quoted "Sweeping tone." ++ js "}".

Definition siren : JSON.Value :=
  JSON.Object [
    (js "label", JSON.String (js "Siren"));
    (js "accuracy", JSON.Number (js "97.5"));
    (js "probabilities",
      JSON.Array [ JSON.Object [ (js "name", JSON.String (js "Siren"));
                                 (js "value", JSON.Number (js "97.5")) ] ]);
    (js "explanation", JSON.String (js "Sweeping tone.")) ].

(** A reply with a label and nothing else. *)
Definition label_only_reply : jsstring :=
  js "{" ++ quoted "label" ++ js ": " ++ quoted "Siren" ++ js "}".

Definition label_only : JSON.Value :=
  JSON.Object [ (js "label", JSON.String (js "Siren")) ].

Definition notebook : App.ModelMetadata.t :=
  {| App.ModelMetadata.name := js "model.ipynb";
     App.ModelMetadata.size := 2;
     App.ModelMetadata.content := js "{}" |}.

(** The audio view with a model loaded and a clip selected. *)
Definition ready : App.State :=
  App.setAudioFile (Some clip)
    (App.setCurrentStep App.INPUT_AUDIO
       (App.setModelData (Some notebook) App.initial)).

(** The audio view with a model loaded and nothing selected. *)
Definition loaded : App.State :=
  App.setCurrentStep App.INPUT_AUDIO
    (App.setModelData (Some notebook) App.initial).

(** A recording in progress in the audio view, and the widget drawing
    its live stream. *)
Definition recording : Browser.World * App.State :=
  App.startRecording (App.Granted 1) App.Started (Browser.empty, loaded).

Definition visualizing : Browser.World * Visualizer.State * Visualizer.Closure :=
  Visualizer.effect (Visualizer.props_of (snd recording))
    (fst recording, Visualizer.mount).

(** Two contexts that agree on their first 2000 code units only. *)
Definition long_context (last : N) : jsstring := replicate 2000 120%N ++ [last].

End Samples.

(** ** The wizard as an event-driven system

    The handlers of the App run one at a time, in whatever order the user
    and the browser produce the events. A [System] is the browser store,
    the App state and the file reads in flight; [dispatch] runs the
    handler of one event. Nothing restricts the order of the events, so
    what holds after every trace holds in the running application. *)

Module Wizard.
Import JS Browser.

Record System := {
  world : World;
  app : App.State;
  reading : list File.t;
}.

Definition boot : System :=
  {| world := Browser.empty; app := App.initial; reading := [] |}.

Inductive Event :=
| ToggleTheme
| ModelUpload (files : list File.t)
| ModelLoaded (reader : nat) (text : jsstring)
| AudioUpload (files : list File.t)
| StartRecording (media : App.UserMedia) (rec : App.RecorderStart)
| DataAvailable (data : Blob.t)
| StopRecording
| RecorderStopped (recorder : nat) (data : Blob.t)
| Classify
| Settled (outcome : Outcome JSON.Value)
| Reset
| ChangeModel.

Definition with_app (s : App.State) (sys : System) : System :=
  {| world := world sys; app := s; reading := reading sys |}.

Definition with_world_app (ws : World * App.State) (sys : System) : System :=
  {| world := fst ws; app := snd ws; reading := reading sys |}.

Definition dispatch (sys : System) (e : Event) : System :=
  match e with
  | ToggleTheme => with_app (App.toggleTheme (app sys)) sys
  | ModelUpload files =>
      let '(s, started) := App.handleModelUpload files (app sys) in
      {| world := world sys; app := s;
         reading := reading sys ++ match started with
                                   | Some f => [f]
                                   | None => []
                                   end |}
  | ModelLoaded i text =>
      match reading sys !! i with
      | Some f =>
          {| world := world sys;
             app := App.handleModelUpload_onload f text (app sys);
             reading := delete i (reading sys) |}
      | None => sys
      end
  | AudioUpload files => with_app (App.handleAudioUpload files (app sys)) sys
  | StartRecording media rec =>
      with_world_app (App.startRecording media rec (world sys, app sys)) sys
  | DataAvailable data =>
      with_app (App.mediaRecorder_ondataavailable data (app sys)) sys
  | StopRecording =>
      with_world_app (fst (App.stopRecording (world sys, app sys))) sys
  | RecorderStopped r data =>
      with_world_app (App.stop_task r data (world sys, app sys)) sys
  | Classify =>
      match App.runClassification_begin (app sys) with
      | Some (s, _) => with_app s sys
      | None => sys
      end
  | Settled r => with_app (App.runClassification_settle r (app sys)) sys
  | Reset => with_app (App.reset (app sys)) sys
  | ChangeModel => with_app (App.changeModel (app sys)) sys
  end.

Definition run_from (sys : System) (events : list Event) : System :=
  foldl dispatch sys events.

Definition run (events : list Event) : System := run_from boot events.

(** The value of the last call that settled with one, if any. *)
Definition returned (e : Event) : option JSON.Value :=
  match e with
  | Settled (Returned v) => Some v
  | _ => None
  end.

Definition last_returned (events : list Event) : option JSON.Value :=
  foldl (fun acc e => match returned e with Some v => Some v | None => acc end)
        None events.

(** The messages the App ever puts in [error]. *)
Definition known_error (e : option jsstring) : Prop :=
  e = None
  \/ e = Some App.invalid_file_type
  \/ e = Some App.microphone_denied
  \/ e = Some App.classification_failed.

Record Invariant (sys : System) : Prop := {
  inv_error : known_error (App.error (app sys));
  inv_model :
    forall m, App.modelData (app sys) = Some m ->
              js ".ipynb" `suffix_of` App.ModelMetadata.name m;
  inv_reading :
    forall f, f ∈ reading sys -> js ".ipynb" `suffix_of` File.name f;
  inv_chunks :
    forall b, b ∈ App.chunksRef (app sys) -> 0 < Blob.size b;
  inv_stream :
    forall i, App.recordingStream (app sys) = Some i ->
              i < length (streams (world sys));
  inv_recorder :
    forall r, App.mediaRecorderRef (app sys) = Some r ->
              r < length (recorders (world sys));
  inv_recorded :
    forall r, r ∈ recorders (world sys) ->
              recorded r < length (streams (world sys));
}.

End Wizard.

(** ** What the App renders (the conditions of its JSX) *)

Module Render.
Import JS.

(** Truthiness of a parsed value. Whether a number literal denotes zero
    depends on the double it rounds to and is taken as [nonzero]. *)
Definition truthy (nonzero : jsstring -> bool) (v : JSON.Value) : bool :=
  match v with
  | JSON.Null => false
  | JSON.Bool b => b
  | JSON.Number l => nonzero l
  | JSON.String s => negb (bool_decide (s = []))
  | JSON.Array _ | JSON.Object _ => true
  end.

Inductive View :=
| UploadModelView
| InputAudioView
| ResultsView (result : JSON.Value).

(** The three conditional blocks of the main container, in order. *)
Definition views (nonzero : jsstring -> bool) (s : App.State) : list View :=
  match App.currentStep s with
  | App.UPLOAD_MODEL => [UploadModelView]
  | _ => []
  end
  ++ match App.currentStep s with
     | App.INPUT_AUDIO | App.ANALYZING => [InputAudioView]
     | _ => []
     end
  ++ match App.currentStep s, App.result s with
     | App.RESULTS, Some r =>
         if truthy nonzero r then [ResultsView r] else []
     | _, _ => []
     end.

(** [result.probabilities.map((entry, index) => <Cell key=... />)] of the
    results view: the indices of the cells, or [None] for the
    [TypeError] of calling [map] on what is not an array. *)
Definition cells (result : JSON.Value) : option (list nat) :=
  match JSON.get result (js "probabilities") with
  | Some (JSON.Array items) => Some (seq 0 (length items))
  | _ => None
  end.

End Render.

(** ** The life of the widget between an effect and its cleanup *)

Module Lifecycle.
Import Browser Visualizer.

Inductive Activity :=
| Frame (id : nat)             (* the browser runs a repaint request *)
| TogglePlay (allowed : bool)  (* a click on the overlay button *)
| Played                       (* the element's play event *)
| Paused                       (* its pause event *)
| Ended                        (* its ended event *)
| Settle.                      (* the awaited close() settles *)

(** [el.pause()] *)
Definition pause (el : nat) (w : World) : World :=
  set_elements
    (alter (fun a => {| paused := true; src := src a; onplay := onplay a;
                        onpause := onpause a; onended := onended a |}) el) w.

(** [el.play()]; the browser may refuse ([allowed] false). *)
Definition play (allowed : bool) (el : nat) (w : World) : World :=
  if allowed then
    set_elements
      (alter (fun a => {| paused := false; src := src a; onplay := onplay a;
                          onpause := onpause a; onended := onended a |}) el) w
  else w.

Definition togglePlay (allowed : bool) (wv : World * State) : World * State :=
  let '(w, v) := wv in
  match audioElementRef v with
  | Some el =>
      if isPlaying v then (pause el w, v) else (play allowed el w, v)
  | None => (w, v)
  end.

(** The overlay button is rendered for a file that is not being
    recorded. *)
Definition overlay_rendered (p : Props) : bool :=
  negb (isRecording p) && bool_decide (is_Some (audioFile p)).

(** A media event reaches the handler the effect attached, if it is
    still attached. *)
Definition media_event (handler : AudioElement -> bool) (playing : bool)
    (w : World) (v : State) (c : Closure) : State :=
  match audioEl c with
  | Some el =>
      match elements w !! el with
      | Some a => if handler a && mounted c then setIsPlaying playing v else v
      | None => v
      end
  | None => v
  end.

(** A pending repaint request runs [animate] and is no longer pending. *)
Definition run_frame (id : nat) (wv : World * State) : World * State :=
  let '(w, v) := wv in
  if bool_decide (id ∈ frames w)
  then animate (set_frames (filter (fun i => i ≠ id)) (next_frame w) w, v)
  else (w, v).

(** The run of the effect that is current: the browser, the component,
    the closure of the run, and whether its [initVisualizer] is
    suspended at the [await]. *)
Definition Current : Type := World * State * Closure * bool.

Definition begin (lagging : bool) (p : Props) (wv : World * State)
  : Current :=
  match effect_start lagging p wv with
  | Completed r => (r, false)
  | Awaiting r => (r, true)
  end.

Definition act (p : Props) (cur : Current) (a : Activity) : Current :=
  let '(w, v, c, awaiting) := cur in
  match a with
  | Frame id => let '(w', v') := run_frame id (w, v) in (w', v', c, awaiting)
  | TogglePlay allowed =>
      if overlay_rendered p
      then let '(w', v') := togglePlay allowed (w, v) in (w', v', c, awaiting)
      else cur
  | Played => (w, media_event onplay true w v c, c, awaiting)
  | Paused => (w, media_event onpause false w v c, c, awaiting)
  | Ended => (w, media_event onended false w v c, c, awaiting)
  | Settle =>
      if awaiting then (initVisualizer_resume p (w, v, c), false) else cur
  end.

(** One run of the effect for props, in a browser that lags or not;
    what happens while the run is current, the settling of its [await]
    among it or not at all; and its cleanup. An [await] that has not
    settled by then settles after the cleanup, and [initVisualizer]
    resumes with the closure the cleanup has written to. *)
Definition cycle (wv : World * State)
    (run : bool * Props * list Activity) : World * State :=
  let '(lagging, p, acts) := run in
  let '(w, v, c, awaiting) := foldl (act p) (begin lagging p wv) acts in
  let '(w, v, c) := cleanup (w, v, c) in
  if awaiting then fst (initVisualizer_resume p (w, v, c)) else (w, v).

(** Does the activity resume a suspended [initVisualizer]? *)
Definition settles (a : Activity) (awaiting : bool) : bool :=
  match a with Settle => awaiting | _ => false end.

(** Neither branch of the effect applies: nothing is recorded and no
    file is shown. *)
Definition idle (p : Props) : bool :=
  match stream p, isRecording p, audioFile p with
  | Some _, true, _ => false
  | _, false, Some _ => false
  | _, _, _ => true
  end.

(** An element that holds no source and no handler. *)
Definition silent (a : AudioElement) : Prop :=
  src a = None /\ onplay a = false /\ onpause a = false /\ onended a = false.

(** Nothing of the widget is left in the browser: no repaint request is
    pending, [close()] has been called on every audio context, every
    object URL is revoked and every audio element is silent. *)
Record Clean (w : World) : Prop := {
  clean_frames : frames w = [];
  clean_next : next_frame w ≠ 0;
  clean_contexts : forall i c, contexts w !! i = Some c -> closed c = true;
  clean_urls : forall i, urls w !! i ≠ Some true;
  clean_elements : forall i a, elements w !! i = Some a -> silent a;
}.

(** The repaint loop holds one pending request, the one in [requestRef]. *)
Definition Looping (w : World) (v : State) : Prop :=
  exists id, frames w = [id] /\ requestRef v = Some id /\ id ≠ 0.

(** While a run is current, what is open is what its cleanup will
    release. *)
Record Active (w : World) (v : State) (c : Closure) : Prop := {
  active_next : next_frame w ≠ 0;
  active_frames : frames w = [] \/ Looping w v;
  active_contexts :
    forall i x, contexts w !! i = Some x -> closed x = false ->
                audioContextRef v = Some i;
  active_urls : forall i, urls w !! i = Some true -> audioUrl c = Some i;
  active_elements :
    forall i a, elements w !! i = Some a -> ¬ silent a -> audioEl c = Some i;
}.

(** What holds of a current run at every moment. *)
Record Invariant (p : Props) (cur : Current) : Prop := {
  inv_active : Active (fst (fst (fst cur))) (snd (fst (fst cur)))
                      (snd (fst cur));
  inv_canvas : canvasRef (snd (fst (fst cur))) = true;
  inv_mounted : mounted (snd (fst cur)) = true;
  inv_awaiting : snd cur = true -> Clean (fst (fst (fst cur)));
  inv_looping :
    snd cur = false -> idle p = false ->
    Looping (fst (fst (fst cur))) (snd (fst (fst cur)));
  inv_idle :
    snd cur = false -> idle p = true ->
    Clean (fst (fst (fst cur))) /\ isPlaying (snd (fst (fst cur))) = false;
}.

End Lifecycle.

(** ** Traces used by the examples *)

Module Scenarios.
Import JS Samples.

(** Load a notebook, choose a clip, classify, get the complete reply. *)
Definition to_results : list Wizard.Event :=
  [ Wizard.ModelUpload [model_ipynb];
    Wizard.ModelLoaded 0 (js "{}");
    Wizard.AudioUpload [{| File.name := js "clip.wav"; File.blob := clip |}];
    Wizard.Classify;
    Wizard.Settled (Returned siren) ].

(** The same, with the model changed while the call is pending. *)
Definition change_while_pending (r : Outcome JSON.Value)
  : list Wizard.Event :=
  [ Wizard.ModelUpload [model_ipynb];
    Wizard.ModelLoaded 0 (js "{}");
    Wizard.AudioUpload [{| File.name := js "clip.wav"; File.blob := clip |}];
    Wizard.Classify;
    Wizard.ChangeModel;
    Wizard.Settled r ].

(** A recording whose first chunk is empty. *)
Definition two_chunks : list Wizard.Event :=
  [ Wizard.StartRecording (App.Granted 1) App.Started;
    Wizard.DataAvailable {| Blob.bytes := []; Blob.type := js "audio/webm" |};
    Wizard.DataAvailable clip ].

(** A chunk as a recorder delivers it, with the codec in its type. *)
Definition opus_chunk : Blob.t :=
  {| Blob.bytes := [26; 69; 223; 163]%N;
     Blob.type := js "audio/webm;codecs=opus" |}.

Definition no_zero (l : jsstring) : bool := true.

Definition file_props : Visualizer.Props :=
  {| Visualizer.stream := None; Visualizer.audioFile := Some clip;
     Visualizer.isRecording := false |}.

Definition recording_props : Visualizer.Props :=
  Visualizer.props_of (snd recording).

(** Frames, a click on the play button and media events. *)
Definition busy : list Lifecycle.Activity :=
  [ Lifecycle.Frame 1; Lifecycle.TogglePlay true; Lifecycle.Played;
    Lifecycle.Frame 2; Lifecycle.Frame 7; Lifecycle.TogglePlay true;
    Lifecycle.Paused; Lifecycle.Frame 3; Lifecycle.Ended ].

(** The widget draws the live stream; then, for the recorded file, a run
    that is cleaned up while suspended, a run that resumes, and a run in
    a browser that does not lag. *)
Definition four_runs
  : list (bool * Visualizer.Props * list Lifecycle.Activity) :=
  [ (false, recording_props, [Lifecycle.Frame 1; Lifecycle.Frame 2]);
    (true, file_props, [Lifecycle.TogglePlay true; Lifecycle.Frame 3]);
    (true, file_props, Lifecycle.Frame 3 :: Lifecycle.Settle :: busy);
    (false, file_props, busy) ].

Definition idle_props : Visualizer.Props :=
  {| Visualizer.stream := None; Visualizer.audioFile := None;
     Visualizer.isRecording := false |}.

(** The browser and the widget after it has drawn the live stream and
    that run has been cleaned up. *)
Definition after_recording : Browser.World * Visualizer.State :=
  Lifecycle.cycle (fst recording, Visualizer.mount)
    (false, recording_props, [Lifecycle.Frame 1; Lifecycle.Frame 2]).

End Scenarios.

(** * Properties *)

Import JS Samples.

(** ** String operations against their list specifications *)

Lemma endsWith_suffix (s t : jsstring) :
  endsWith s t = true <-> t `suffix_of` s.
Proof.
  unfold endsWith.
  rewrite andb_true_iff, !bool_decide_eq_true.
  split.
  - intros [_ Hd]. exists (take (length s - length t) s).
    pose proof (take_drop (length s - length t) s) as E.
    rewrite Hd in E. symmetry. exact E.
  - intros [k ->]. rewrite length_app. split; [lia|].
    replace (length k + length t - length t) with (length k) by lia.
    apply drop_app_length.
Qed.

Lemma endsWith_not_suffix (s t : jsstring) :
  endsWith s t = false <-> ¬ t `suffix_of` s.
Proof.
  rewrite <- endsWith_suffix. destruct (endsWith s t); split; intros H.
  - discriminate.
  - contradict H. reflexivity.
  - discriminate.
  - reflexivity.
Qed.

Lemma take_min_length {A} (n : nat) (l : list A) :
  take (n `min` length l) l = take n l.
Proof.
  destruct (Nat.le_gt_cases n (length l)) as [H|H].
  - rewrite Nat.min_l by exact H. reflexivity.
  - rewrite Nat.min_r by lia. rewrite !take_ge by lia. reflexivity.
Qed.

Lemma substring_from_start (s : jsstring) (n : nat) :
  substring s 0 n = take n s.
Proof.
  unfold substring. rewrite Nat.min_0_l. simpl.
  rewrite Nat.sub_0_r. apply take_min_length.
Qed.

Lemma substring_from_start_length (s : jsstring) (n : nat) :
  length (substring s 0 n) = n `min` length s.
Proof. rewrite substring_from_start. apply length_take. Qed.

(** ** The wizard: model upload *)

Lemma handleModelUpload_first
    (file : File.t) (rest : list File.t) (s : App.State) :
  App.handleModelUpload (file :: rest) s
  = if negb (endsWith (File.name file) (js ".ipynb"))
    then (App.setError (Some App.invalid_file_type) s, None)
    else (s, Some file).
Proof. reflexivity. Qed.

(** C4. An upload whose first file has a name that does not end in
    [.ipynb] sets the invalid-file-type error, starts no read of the file
    (so the load callback that advances the wizard never runs), and
    leaves the step, the model metadata and every other field of the
    state as they were. *)
Theorem handleModelUpload_rejects_other_suffix
    (file : File.t) (rest : list File.t) (s : App.State) :
  ¬ js ".ipynb" `suffix_of` File.name file ->
  let r := App.handleModelUpload (file :: rest) s in
  r = (App.setError (Some App.invalid_file_type) s, None)
  /\ App.error (fst r) = Some (js "Please upload a valid .ipynb file.")
  /\ App.currentStep (fst r) = App.currentStep s
  /\ App.modelData (fst r) = App.modelData s
  /\ App.audioFile (fst r) = App.audioFile s
  /\ App.isRecording (fst r) = App.isRecording s
  /\ App.recordingStream (fst r) = App.recordingStream s
  /\ App.result (fst r) = App.result s
  /\ App.theme (fst r) = App.theme s
  /\ App.mediaRecorderRef (fst r) = App.mediaRecorderRef s
  /\ App.chunksRef (fst r) = App.chunksRef s.
Proof.
  intros Hsuf r. subst r. rewrite handleModelUpload_first.
  apply endsWith_not_suffix in Hsuf. rewrite Hsuf.
  repeat split.
Qed.

Lemma handleModelUpload_rejects_other_suffix_witness :
  ¬ js ".ipynb" `suffix_of` File.name notes_txt
  /\ App.handleModelUpload [notes_txt] App.initial
     = (App.setError (Some App.invalid_file_type) App.initial, None).
Proof.
  assert (H : ¬ js ".ipynb" `suffix_of` File.name notes_txt).
  { apply endsWith_not_suffix. reflexivity. }
  split; [exact H|].
  exact (proj1 (handleModelUpload_rejects_other_suffix
                  notes_txt [] App.initial H)).
Defined.

(** C5. An upload whose first file has a name ending in [.ipynb] leaves
    the state as it is and starts reading that file; when the text has
    been read, the load callback stores the file's name, its byte size
    and the text as the model metadata, clears the error and moves the
    wizard to the audio-input step, whatever the state then is, and
    changes nothing else. *)
Theorem handleModelUpload_accepts_ipynb
    (file : File.t) (rest : list File.t) (s : App.State) :
  js ".ipynb" `suffix_of` File.name file ->
  App.handleModelUpload (file :: rest) s = (s, Some file)
  /\ forall (text : jsstring) (s1 : App.State),
       let s2 := App.handleModelUpload_onload file text s1 in
       App.modelData s2
       = Some {| App.ModelMetadata.name := File.name file;
                 App.ModelMetadata.size := length (Blob.bytes (File.blob file));
                 App.ModelMetadata.content := text |}
       /\ App.error s2 = None
       /\ App.currentStep s2 = App.INPUT_AUDIO
       /\ App.audioFile s2 = App.audioFile s1
       /\ App.isRecording s2 = App.isRecording s1
       /\ App.recordingStream s2 = App.recordingStream s1
       /\ App.result s2 = App.result s1
       /\ App.theme s2 = App.theme s1
       /\ App.mediaRecorderRef s2 = App.mediaRecorderRef s1
       /\ App.chunksRef s2 = App.chunksRef s1.
Proof.
  intros Hsuf. split.
  - rewrite handleModelUpload_first.
    apply endsWith_suffix in Hsuf. rewrite Hsuf. reflexivity.
  - intros text s1 s2. subst s2. repeat split.
Qed.

Lemma handleModelUpload_accepts_ipynb_witness :
  js ".ipynb" `suffix_of` File.name model_ipynb
  /\ App.handleModelUpload [model_ipynb] App.initial
     = (App.initial, Some model_ipynb)
  /\ App.modelData
       (App.handleModelUpload_onload model_ipynb (js "{}") App.initial)
     = Some {| App.ModelMetadata.name := js "model.ipynb";
               App.ModelMetadata.size := 2;
               App.ModelMetadata.content := js "{}" |}.
Proof.
  assert (H : js ".ipynb" `suffix_of` File.name model_ipynb).
  { apply endsWith_suffix. reflexivity. }
  pose proof (handleModelUpload_accepts_ipynb model_ipynb [] App.initial H)
    as [Hcall Hload].
  split; [exact H|]. split; [exact Hcall|].
  exact (proj1 (Hload (js "{}") App.initial)).
Defined.

(** ** The wizard: classification *)

Lemma runClassification_unfold (env : Gemini.Platform) (s : App.State)
    (a : Blob.t) (m : App.ModelMetadata.t) :
  App.audioFile s = Some a -> App.modelData s = Some m ->
  App.runClassification env s
  = (App.runClassification_settle
       (fst (Gemini.run (Gemini.classifyAudioWithGemini env a
                           (App.ModelMetadata.content m))))
       (App.setCurrentStep App.ANALYZING s),
     snd (Gemini.run (Gemini.classifyAudioWithGemini env a
                        (App.ModelMetadata.content m)))).
Proof.
  intros Ha Hm. unfold App.runClassification, App.runClassification_begin.
  rewrite Ha, Hm.
  destruct (Gemini.run _) as [r log]. reflexivity.
Qed.

(** The continuation after the remote call, on whatever state it finds:
    a returned value is stored and the step becomes the results step; a
    thrown one sets the generic message and the step becomes the
    audio-input step; the audio input and the model metadata are read
    from the state it finds and are not written. *)
Lemma runClassification_settle_frame
    (r : Outcome JSON.Value) (s : App.State) :
  let s' := App.runClassification_settle r s in
  App.audioFile s' = App.audioFile s
  /\ App.modelData s' = App.modelData s
  /\ App.isRecording s' = App.isRecording s
  /\ App.recordingStream s' = App.recordingStream s
  /\ App.theme s' = App.theme s
  /\ App.mediaRecorderRef s' = App.mediaRecorderRef s
  /\ App.chunksRef s' = App.chunksRef s.
Proof. destruct r; repeat split. Qed.

(** C1. With an audio blob and model metadata present, [runClassification]
    calls the client on that blob and the metadata's content. If the
    client returns a value, the state reaches the results step and
    [result] is exactly that value; if the client throws, the state
    returns to the audio-input step, [error] is the generic failure
    message and the audio input is the one selected before. In both
    cases every other field is as before. *)
Theorem runClassification_outcomes
    (env : Gemini.Platform) (s : App.State)
    (a : Blob.t) (m : App.ModelMetadata.t) :
  App.audioFile s = Some a -> App.modelData s = Some m ->
  let call :=
    Gemini.run (Gemini.classifyAudioWithGemini env a
                  (App.ModelMetadata.content m)) in
  let s' := fst (App.runClassification env s) in
  snd (App.runClassification env s) = snd call
  /\ (forall data : JSON.Value, fst call = Returned data ->
        App.currentStep s' = App.RESULTS
        /\ App.result s' = Some data
        /\ App.error s' = App.error s)
  /\ (forall e : Exception, fst call = Thrown e ->
        App.currentStep s' = App.INPUT_AUDIO
        /\ App.error s'
           = Some (js "Classification failed. Please check your API key or internet connection.")
        /\ App.audioFile s' = Some a
        /\ App.result s' = App.result s)
  /\ App.audioFile s' = App.audioFile s
  /\ App.modelData s' = App.modelData s
  /\ App.isRecording s' = App.isRecording s
  /\ App.recordingStream s' = App.recordingStream s
  /\ App.theme s' = App.theme s
  /\ App.mediaRecorderRef s' = App.mediaRecorderRef s
  /\ App.chunksRef s' = App.chunksRef s.
Proof.
  intros Ha Hm call s'. subst call s'.
  rewrite (runClassification_unfold env s a m Ha Hm). cbn [fst snd].
  split; [reflexivity|].
  split; [intros data ->; repeat split|].
  split; [intros e ->; repeat split; exact Ha|].
  apply (runClassification_settle_frame _ (App.setCurrentStep App.ANALYZING s)).
Qed.

Lemma runClassification_outcomes_witness :
  (App.audioFile ready = Some clip /\ App.modelData ready = Some notebook)
  /\ (App.currentStep (fst (App.runClassification (replying (Some siren_reply)) ready))
      = App.RESULTS
      /\ App.result (fst (App.runClassification (replying (Some siren_reply)) ready))
         = Some siren)
  /\ (App.currentStep (fst (App.runClassification offline ready))
      = App.INPUT_AUDIO
      /\ App.error (fst (App.runClassification offline ready))
         = Some App.classification_failed
      /\ App.audioFile (fst (App.runClassification offline ready))
         = Some clip).
Proof.
  split; [split; reflexivity|].
  pose proof (runClassification_outcomes (replying (Some siren_reply)) ready
                clip notebook eq_refl eq_refl) as (_ & Hok & _).
  pose proof (runClassification_outcomes offline ready
                clip notebook eq_refl eq_refl) as (_ & _ & Hfail & _).
  split.
  - destruct (Hok siren) as (H1 & H2 & _); [vm_compute; reflexivity|].
    split; assumption.
  - destruct (Hfail Gemini.classification_failed) as (H1 & H2 & H3 & _);
      [vm_compute; reflexivity|].
    repeat split; assumption.
Defined.

(** C9. When the audio input or the model metadata is null,
    [runClassification] returns at its guard: no request is sent and the
    state is the one it was called on. *)
Theorem runClassification_guard (env : Gemini.Platform) (s : App.State) :
  App.audioFile s = None \/ App.modelData s = None ->
  App.runClassification_begin s = None
  /\ App.runClassification env s = (s, []).
Proof.
  intros H. unfold App.runClassification.
  assert (Hb : App.runClassification_begin s = None).
  { unfold App.runClassification_begin.
    destruct H as [-> | ->]; [reflexivity|].
    destruct (App.audioFile s); reflexivity. }
  rewrite Hb. split; reflexivity.
Qed.

Lemma runClassification_guard_witness :
  (App.audioFile loaded = None \/ App.modelData loaded = None)
  /\ App.runClassification offline loaded = (loaded, []).
Proof.
  split; [left; reflexivity|].
  exact (proj2 (runClassification_guard offline loaded (or_introl eq_refl))).
Defined.

(** C7. [reset] clears the audio input and the classification result and
    sets the step to the audio-input step, from the results step as from
    any other; the model metadata and every other field are as before. *)
Theorem reset_keeps_model (s : App.State) :
  let s' := App.reset s in
  App.audioFile s' = None
  /\ App.result s' = None
  /\ App.currentStep s' = App.INPUT_AUDIO
  /\ App.modelData s' = App.modelData s
  /\ App.error s' = App.error s
  /\ App.isRecording s' = App.isRecording s
  /\ App.recordingStream s' = App.recordingStream s
  /\ App.theme s' = App.theme s
  /\ App.mediaRecorderRef s' = App.mediaRecorderRef s
  /\ App.chunksRef s' = App.chunksRef s.
Proof. repeat split. Qed.

(** ** The wizard: recording *)

Lemma dataavailable_events_chunks (datas : list Blob.t) (s : App.State) :
  App.dataavailable_events datas s
  = App.set_chunksRef
      (App.chunksRef s ++ filter (fun d => 0 < Blob.size d) datas) s.
Proof.
  revert s. induction datas as [|d ds IH]; intros s.
  - destruct s. cbn. rewrite app_nil_r. reflexivity.
  - change (App.dataavailable_events (d :: ds) s)
      with (App.dataavailable_events ds (App.mediaRecorder_ondataavailable d s)).
    rewrite IH. unfold App.mediaRecorder_ondataavailable.
    rewrite filter_cons. case_bool_decide; case_decide; try contradiction.
    + cbn. rewrite <- app_assoc. reflexivity.
    + reflexivity.
Qed.

Lemma concat_bytes_filter (datas : list Blob.t) :
  concat (map Blob.bytes (filter (fun d => 0 < Blob.size d) datas))
  = concat (map Blob.bytes datas).
Proof.
  induction datas as [|d ds IH]; [reflexivity|].
  rewrite filter_cons. case_decide as Hd; cbn.
  - rewrite IH. reflexivity.
  - rewrite IH. unfold Blob.size in Hd.
    destruct (Blob.bytes d); [reflexivity | cbn in Hd; lia].
Qed.

Lemma all_ended_stopped (ts : list Browser.ReadyState) :
  Browser.all_ended (map (fun _ => Browser.ended) ts) = true.
Proof. induction ts; [reflexivity | assumption]. Qed.

Lemma getTracks_stop_tracks (stream : nat) (w : Browser.World) :
  Browser.all_ended (Browser.getTracks (Browser.stop_tracks stream w) stream)
  = true.
Proof.
  unfold Browser.getTracks, Browser.stop_tracks. cbn.
  rewrite list_lookup_alter_eq.
  destruct (Browser.streams w !! stream); cbn;
    [apply all_ended_stopped | reflexivity].
Qed.

Lemma getTracks_stop_tracks_length (stream : nat) (w : Browser.World) :
  length (Browser.getTracks (Browser.stop_tracks stream w) stream)
  = length (Browser.getTracks w stream).
Proof.
  unfold Browser.getTracks, Browser.stop_tracks. cbn.
  rewrite list_lookup_alter_eq.
  destruct (Browser.streams w !! stream); cbn;
    [apply length_map | reflexivity].
Qed.

Lemma mediaRecorder_ondataavailable_chunks (d : Blob.t) (s : App.State) :
  App.chunksRef (App.mediaRecorder_ondataavailable d s)
  = App.chunksRef s ++ filter (fun d => 0 < Blob.size d) [d].
Proof.
  unfold App.mediaRecorder_ondataavailable.
  rewrite filter_cons, filter_nil.
  case_bool_decide; case_decide; try contradiction; cbn.
  - reflexivity.
  - rewrite app_nil_r. reflexivity.
Qed.

Lemma mediaRecorder_ondataavailable_isRecording (d : Blob.t) (s : App.State) :
  App.isRecording (App.mediaRecorder_ondataavailable d s) = App.isRecording s.
Proof.
  unfold App.mediaRecorder_ondataavailable. case_bool_decide; reflexivity.
Qed.

Lemma mediaRecorder_onstop_audioFile
    (stream : nat) (w : Browser.World) (s : App.State) :
  App.audioFile (snd (App.mediaRecorder_onstop stream (w, s)))
  = Some {| Blob.bytes := concat (map Blob.bytes (App.chunksRef s));
            Blob.type := js "audio/webm" |}.
Proof. reflexivity. Qed.

Lemma record_session_result
    (n : nat) (datas : list Blob.t) (last : Blob.t)
    (w : Browser.World) (s : App.State) :
  let stream := length (Browser.streams w) in
  let r := App.record_session n datas last (w, s) in
  App.audioFile (snd r)
  = Some {| Blob.bytes := concat (map Blob.bytes (datas ++ [last]));
            Blob.type := js "audio/webm" |}
  /\ App.recordingStream (snd r) = None
  /\ App.isRecording (snd r) = false
  /\ Browser.getTracks (fst r) stream = replicate n Browser.ended.
Proof.
  intros stream r. subst r. unfold App.record_session.
  unfold App.startRecording. cbn [snd].
  rewrite dataavailable_events_chunks.
  unfold App.stopRecording. cbn [App.mediaRecorderRef App.set_chunksRef
    App.set_mediaRecorderRef App.setAudioFile App.setIsRecording
    App.setRecordingStream App.isRecording].
  cbn [Browser.recorders Browser.set_recorders Browser.set_streams].
  rewrite list_lookup_alter_eq, list_lookup_middle by reflexivity.
  cbn [fmap option_fmap option_map Browser.recorded Browser.recording].
  unfold App.stop_task.
  cbn [Browser.recorders Browser.set_recorders Browser.set_streams].
  rewrite list_alter_alter_eq, list_lookup_alter_eq,
    list_lookup_middle by reflexivity.
  cbn [fmap option_fmap option_map Browser.recorded Browser.recording compose].
  fold stream.
  split; [|split; [reflexivity|split]].
  - rewrite mediaRecorder_onstop_audioFile.
    rewrite mediaRecorder_ondataavailable_chunks. cbn [App.chunksRef
      App.set_chunksRef App.setIsRecording app].
    rewrite <- filter_app, concat_bytes_filter. reflexivity.
  - unfold App.mediaRecorder_onstop. cbn [snd App.isRecording
      App.setRecordingStream App.setAudioFile].
    apply mediaRecorder_ondataavailable_isRecording.
  - unfold App.mediaRecorder_onstop. cbn [fst].
    unfold Browser.getTracks, Browser.stop_tracks.
    cbn [Browser.streams Browser.set_recorders Browser.set_streams].
    rewrite list_lookup_alter_eq, list_lookup_middle by reflexivity.
    cbn [fmap option_fmap option_map default].
    induction n as [|k IH]; [reflexivity|]. cbn. f_equal. exact IH.
Qed.

(** C6. A granted [startRecording] sets the audio input to null, whether
    or not the recorder then starts; the recorder's stop handler builds
    one blob from the chunk list, its bytes the chunks' bytes in order
    and its type exactly [audio/webm], and makes it the audio input; so
    a whole recording leaves as audio input the concatenation of all the
    data delivered, typed [audio/webm]. *)
Theorem recording_clears_then_yields_webm :
  (forall (n : nat) (rec : App.RecorderStart)
          (w : Browser.World) (s : App.State),
      App.audioFile (snd (App.startRecording (App.Granted n) rec (w, s)))
      = None)
  /\ (forall (stream : nat) (w : Browser.World) (s : App.State),
        App.audioFile (snd (App.mediaRecorder_onstop stream (w, s)))
        = Some {| Blob.bytes := concat (map Blob.bytes (App.chunksRef s));
                  Blob.type := js "audio/webm" |})
  /\ (forall (n : nat) (datas : list Blob.t) (last : Blob.t)
             (w : Browser.World) (s : App.State),
        App.audioFile (snd (App.record_session n datas last (w, s)))
        = Some {| Blob.bytes := concat (map Blob.bytes (datas ++ [last]));
                  Blob.type := js "audio/webm" |}).
Proof.
  split; [|split].
  - intros n rec w s. destruct rec; reflexivity.
  - apply mediaRecorder_onstop_audioFile.
  - intros n datas last w s.
    exact (proj1 (record_session_result n datas last w s)).
Qed.

(** ** The widget's teardown and the stream's tracks *)

Lemma cleanup_streams
    (w : Browser.World) (v : Visualizer.State) (c : Visualizer.Closure) :
  Browser.streams (fst (fst (Visualizer.cleanup (w, v, c))))
  = Browser.streams w.
Proof. unfold Visualizer.cleanup. repeat case_match; reflexivity. Qed.

Lemma is_open_close_context (ctx : nat) (w : Browser.World) :
  Browser.is_open (Browser.close_context ctx w) ctx = false.
Proof.
  unfold Browser.is_open, Browser.close_context. cbn.
  rewrite list_lookup_alter_eq.
  destruct (Browser.contexts w !! ctx); reflexivity.
Qed.

Lemma cleanup_closes_context
    (w : Browser.World) (v : Visualizer.State) (c : Visualizer.Closure)
    (ctx : nat) :
  Visualizer.audioContextRef v = Some ctx ->
  Browser.is_open (fst (fst (Visualizer.cleanup (w, v, c)))) ctx = false.
Proof.
  intros Hctx. unfold Visualizer.cleanup. rewrite Hctx.
  set (w1 := match Visualizer.requestRef v with
             | Some id => _
             | None => _
             end).
  assert (H : Browser.is_open
                (if Browser.is_open w1 ctx
                 then Browser.close_context ctx w1 else w1) ctx = false).
  { destruct (Browser.is_open w1 ctx) eqn:E;
      [apply is_open_close_context | exact E]. }
  revert H. generalize (if Browser.is_open w1 ctx
                        then Browser.close_context ctx w1 else w1).
  intros w2 H. repeat case_match; exact H.
Qed.

Lemma cleanup_cancels_frame
    (w : Browser.World) (v : Visualizer.State) (c : Visualizer.Closure)
    (id : nat) :
  Visualizer.requestRef v = Some id -> id ≠ 0 ->
  id ∉ Browser.frames (fst (fst (Visualizer.cleanup (w, v, c)))).
Proof.
  intros Hid Hnz. unfold Visualizer.cleanup. rewrite Hid.
  rewrite bool_decide_true by exact Hnz.
  assert (H : id ∉ Browser.frames (Browser.cancelAnimationFrame id w)).
  { cbn. rewrite list_elem_of_filter. intros [Hne _]. apply Hne. reflexivity. }
  revert H. generalize (Browser.cancelAnimationFrame id w).
  intros w1 H. repeat case_match; exact H.
Qed.

(** C2, as stated, fails: the widget is rendered and draws a live
    microphone stream ([isRecording] true, the stream attached); it is
    torn down, and the stream's one track is still live afterwards. *)
Lemma visualizer_teardown_leaves_track_live :
  Visualizer.rendered (snd recording) = true
  /\ Visualizer.isRecording (Visualizer.props_of (snd recording)) = true
  /\ Visualizer.stream (Visualizer.props_of (snd recording)) = Some 0
  /\ Browser.getTracks (fst (fst visualizing)) 0 = [Browser.live]
  /\ Browser.getTracks (fst (fst (Visualizer.cleanup visualizing))) 0
     = [Browser.live]
  /\ Browser.all_ended
       (Browser.getTracks (fst (fst (Visualizer.cleanup visualizing))) 0)
     = false.
Proof. vm_compute. repeat split. Qed.

(** C2, amended. The teardown of the widget marks the effect unmounted,
    cancels the pending repaint request and closes the audio context,
    and leaves every stream, and so every track's state, as it was. The
    tracks of a recording's stream are stopped by the recorder's stop
    handler: after it, every track of that stream is ended. *)
Theorem teardown_keeps_tracks_onstop_ends_them :
  (forall (w : Browser.World) (v : Visualizer.State) (c : Visualizer.Closure),
      let r := Visualizer.cleanup (w, v, c) in
      Browser.streams (fst (fst r)) = Browser.streams w
      /\ (forall stream : nat,
            Browser.getTracks (fst (fst r)) stream = Browser.getTracks w stream)
      /\ Visualizer.mounted (snd r) = false
      /\ (forall ctx : nat, Visualizer.audioContextRef v = Some ctx ->
            Browser.is_open (fst (fst r)) ctx = false)
      /\ (forall id : nat, Visualizer.requestRef v = Some id -> id ≠ 0 ->
            ¬ id ∈ Browser.frames (fst (fst r))))
  /\ (forall (stream : nat) (w : Browser.World) (s : App.State),
        let w' := fst (App.mediaRecorder_onstop stream (w, s)) in
        Browser.all_ended (Browser.getTracks w' stream) = true
        /\ length (Browser.getTracks w' stream)
           = length (Browser.getTracks w stream)).
Proof.
  split.
  - intros w v c r. subst r.
    pose proof (cleanup_streams w v c) as Hs.
    split; [exact Hs|].
    split; [intros stream; unfold Browser.getTracks; rewrite Hs; reflexivity|].
    split; [reflexivity|].
    split; [intros ctx; apply cleanup_closes_context|].
    intros id. apply cleanup_cancels_frame.
  - intros stream w s w'. subst w'. cbn [App.mediaRecorder_onstop fst].
    split; [apply getTracks_stop_tracks | apply getTracks_stop_tracks_length].
Qed.

Lemma teardown_keeps_tracks_onstop_ends_them_witness :
  (Visualizer.audioContextRef (snd (fst visualizing)) = Some 0
   /\ Visualizer.requestRef (snd (fst visualizing)) = Some 1)
  /\ Browser.is_open (fst (fst visualizing)) 0 = true
  /\ Browser.is_open (fst (fst (Visualizer.cleanup visualizing))) 0 = false
  /\ (1 ∉ Browser.frames (fst (fst (Visualizer.cleanup visualizing))))
  /\ Browser.getTracks
       (fst (App.mediaRecorder_onstop 0
               (fst (fst (Visualizer.cleanup visualizing)), snd recording))) 0
     = [Browser.ended].
Proof.
  split; [split; reflexivity|].
  split; [reflexivity|].
  destruct teardown_keeps_tracks_onstop_ends_them as [Hclean Hstop].
  destruct (Hclean (fst (fst visualizing)) (snd (fst visualizing))
              (snd visualizing)) as (_ & _ & _ & Hctx & Hframe).
  split; [exact (Hctx 0 eq_refl)|].
  split; [exact (Hframe 1 eq_refl (Nat.neq_succ_0 0))|].
  reflexivity.
Defined.

(** ** The client: outcome and outbound request *)

Lemma classify_run (env : Gemini.Platform) (blob : Blob.t) (c : jsstring) :
  Gemini.run (Gemini.classifyAudioWithGemini env blob c)
  = match Gemini.readAsDataURL env blob with
    | None => (Thrown ProgressEvent, [])
    | Some d =>
        let req := Gemini.request blob (split d 44%N !! 1) c in
        (match Gemini.generateContent env req with
         | Thrown _ => Thrown Gemini.classification_failed
         | Returned resp =>
             match Gemini.text resp with
             | None | Some [] => Thrown Gemini.classification_failed
             | Some t =>
                 match JSON.parse t with
                 | Some v => Returned v
                 | None => Thrown Gemini.classification_failed
                 end
             end
         end, [req])
    end.
Proof.
  unfold Gemini.run, Gemini.classifyAudioWithGemini, Gemini.bind,
    Gemini.blobToBase64, Gemini.try_catch, Gemini.send.
  destruct (Gemini.readAsDataURL env blob) as [d|]; [|reflexivity].
  cbn. destruct (Gemini.generateContent env _) as [[[[|u t]|]]|e];
    try reflexivity.
  cbn. unfold Gemini.ret, Gemini.throw.
  destruct (JSON.parse (u :: t)); reflexivity.
Qed.

Lemma parse_empty : JSON.parse [] = None.
Proof. reflexivity. Qed.

Example parse_empty_object : JSON.parse (js "{}") = Some (JSON.Object []).
Proof. reflexivity. Qed.

Example parse_siren_reply : JSON.parse siren_reply = Some siren.
Proof. vm_compute. reflexivity. Qed.

Example parse_nested :
  JSON.parse (js " [1, -0.5e+3, [true, false, null], {}] ")
  = Some (JSON.Array [ JSON.Number (js "1"); JSON.Number (js "-0.5e+3");
                       JSON.Array [ JSON.Bool true; JSON.Bool false;
                                    JSON.Null ];
                       JSON.Object [] ]).
Proof. vm_compute. reflexivity. Qed.

Example parse_rejects_malformed :
  JSON.parse (js "{") = None
  /\ JSON.parse (js "[1,]") = None
  /\ JSON.parse (js "01") = None
  /\ JSON.parse (js "{} {}") = None
  /\ JSON.parse (js "undefined") = None
  /\ JSON.parse (js "   ") = None.
Proof. vm_compute. repeat split. Qed.

Example siren_is_ClassificationResult :
  Gemini.is_ClassificationResult siren = true.
Proof. vm_compute. reflexivity. Qed.

(** C3, as stated, fails: a reply that parses as JSON but has only the
    [label] field is returned as the result. It is not a
    [ClassificationResult], and the call has not thrown. *)
Lemma classify_returns_partial_result :
  fst (Gemini.run (Gemini.classifyAudioWithGemini
                     (replying (Some label_only_reply)) clip (js "{}")))
  = Returned label_only
  /\ Gemini.is_ClassificationResult label_only = false
  /\ fst (Gemini.run (Gemini.classifyAudioWithGemini
                        (replying (Some label_only_reply)) clip (js "{}")))
     <> Thrown Gemini.classification_failed.
Proof.
  assert (H : fst (Gemini.run (Gemini.classifyAudioWithGemini
                     (replying (Some label_only_reply)) clip (js "{}")))
              = Returned label_only) by (vm_compute; reflexivity).
  split; [exact H|]. split; [reflexivity|].
  rewrite H. discriminate.
Qed.

(** C3, amended. Once the audio has been read, a network failure, an
    absent or empty reply text and a reply text that is not JSON all
    make the call throw one and the same error, which carries nothing of
    the cause. A reply text that parses as JSON is returned as parsed,
    with no check of the result's fields. *)
Theorem classify_failures_collapse
    (env : Gemini.Platform) (blob : Blob.t) (c d : jsstring) :
  Gemini.readAsDataURL env blob = Some d ->
  let req := Gemini.request blob (split d 44%N !! 1) c in
  let out := fst (Gemini.run (Gemini.classifyAudioWithGemini env blob c)) in
  (forall e : Exception,
      Gemini.generateContent env req = Thrown e ->
      out = Thrown (Error (js "Failed to classify audio. Please try again.")))
  /\ (forall resp : Gemini.Response,
        Gemini.generateContent env req = Returned resp ->
        Gemini.text resp = None \/ Gemini.text resp = Some [] ->
        out = Thrown (Error (js "Failed to classify audio. Please try again.")))
  /\ (forall (resp : Gemini.Response) (t : jsstring),
        Gemini.generateContent env req = Returned resp ->
        Gemini.text resp = Some t -> JSON.parse t = None ->
        out = Thrown (Error (js "Failed to classify audio. Please try again.")))
  /\ (forall (resp : Gemini.Response) (t : jsstring) (v : JSON.Value),
        Gemini.generateContent env req = Returned resp ->
        Gemini.text resp = Some t -> JSON.parse t = Some v ->
        out = Returned v).
Proof.
  intros Hd req out. subst out. rewrite classify_run, Hd. cbn [fst].
  fold req. repeat split.
  - intros e ->. reflexivity.
  - intros resp -> [-> | ->]; reflexivity.
  - intros resp t -> -> Hp. destruct t; [reflexivity|]. rewrite Hp. reflexivity.
  - intros resp t v -> -> Hp. destruct t as [|u t].
    + rewrite parse_empty in Hp. discriminate.
    + rewrite Hp. reflexivity.
Qed.

Lemma classify_failures_collapse_witness :
  Gemini.readAsDataURL offline clip = Some data_url
  /\ fst (Gemini.run (Gemini.classifyAudioWithGemini offline clip (js "{}")))
     = Thrown Gemini.classification_failed
  /\ fst (Gemini.run (Gemini.classifyAudioWithGemini (replying None) clip
                        (js "{}")))
     = Thrown Gemini.classification_failed
  /\ fst (Gemini.run (Gemini.classifyAudioWithGemini
                        (replying (Some (js "{"))) clip (js "{}")))
     = Thrown Gemini.classification_failed
  /\ fst (Gemini.run (Gemini.classifyAudioWithGemini
                        (replying (Some siren_reply)) clip (js "{}")))
     = Returned siren.
Proof.
  split; [reflexivity|].
  split.
  { exact (proj1 (classify_failures_collapse offline clip (js "{}") data_url
                    eq_refl) (Rejection (js "fetch failed")) eq_refl). }
  split.
  { exact (proj1 (proj2 (classify_failures_collapse (replying None) clip
                           (js "{}") data_url eq_refl))
             {| Gemini.text := None |} eq_refl (or_introl eq_refl)). }
  split.
  { exact (proj1 (proj2 (proj2 (classify_failures_collapse
                                  (replying (Some (js "{"))) clip (js "{}")
                                  data_url eq_refl)))
             {| Gemini.text := Some (js "{") |} (js "{") eq_refl eq_refl
             eq_refl). }
  assert (Hp : JSON.parse siren_reply = Some siren) by (vm_compute; reflexivity).
  exact (proj2 (proj2 (proj2 (classify_failures_collapse
                                (replying (Some siren_reply)) clip (js "{}")
                                data_url eq_refl)))
           {| Gemini.text := Some siren_reply |} siren_reply siren eq_refl
           eq_refl Hp).
Defined.

Lemma classify_log (env : Gemini.Platform) (blob : Blob.t) (c : jsstring) :
  snd (Gemini.run (Gemini.classifyAudioWithGemini env blob c))
  = match Gemini.readAsDataURL env blob with
    | None => []
    | Some d => [Gemini.request blob (split d 44%N !! 1) c]
    end.
Proof.
  rewrite classify_run.
  destruct (Gemini.readAsDataURL env blob); reflexivity.
Qed.

Lemma classify_log_request
    (env : Gemini.Platform) (blob : Blob.t) (c : jsstring)
    (req : Gemini.Request) :
  req ∈ snd (Gemini.run (Gemini.classifyAudioWithGemini env blob c)) ->
  exists base64Audio : option jsstring,
    req = Gemini.request blob base64Audio c.
Proof.
  rewrite classify_log.
  destruct (Gemini.readAsDataURL env blob) as [d|].
  - rewrite list_elem_of_singleton. intros ->. eexists. reflexivity.
  - rewrite elem_of_nil. contradiction.
Qed.

Lemma prompt_take (c : jsstring) :
  Gemini.prompt c = Gemini.prompt_head ++ take 2000 c ++ Gemini.prompt_tail.
Proof. unfold Gemini.prompt. rewrite substring_from_start. reflexivity. Qed.

(** C8. The prompt embeds the first 2000 code units of the context and
    nothing more of it: it is a fixed head, that prefix and a fixed tail.
    An invocation whose audio is read sends exactly one request, and the
    text of that request is this prompt; every request the client sends
    carries it. So two contexts with the same first 2000 code units give
    the same prompt and the same outbound requests. *)
Theorem prompt_embeds_context_prefix :
  (forall c : jsstring,
      Gemini.prompt c
      = Gemini.prompt_head ++ take 2000 c ++ Gemini.prompt_tail
      /\ length (take 2000 c) = 2000 `min` length c)
  /\ (forall (env : Gemini.Platform) (blob : Blob.t) (c d : jsstring),
        Gemini.readAsDataURL env blob = Some d ->
        exists req : Gemini.Request,
          snd (Gemini.run (Gemini.classifyAudioWithGemini env blob c)) = [req]
          /\ Gemini.texts req
             = [Gemini.prompt_head ++ take 2000 c ++ Gemini.prompt_tail])
  /\ (forall (env : Gemini.Platform) (blob : Blob.t) (c : jsstring)
             (req : Gemini.Request),
        req ∈ snd (Gemini.run (Gemini.classifyAudioWithGemini env blob c)) ->
        Gemini.texts req = [Gemini.prompt c])
  /\ (forall c1 c2 : jsstring,
        take 2000 c1 = take 2000 c2 ->
        Gemini.prompt c1 = Gemini.prompt c2
        /\ forall (env : Gemini.Platform) (blob : Blob.t),
             snd (Gemini.run (Gemini.classifyAudioWithGemini env blob c1))
             = snd (Gemini.run (Gemini.classifyAudioWithGemini env blob c2))).
Proof.
  split; [|split; [|split]].
  - intros c. split; [apply prompt_take | apply length_take].
  - intros env blob c d Hd.
    exists (Gemini.request blob (split d 44%N !! 1) c).
    rewrite classify_log, Hd. split; [reflexivity|].
    rewrite <- prompt_take. reflexivity.
  - intros env blob c req Hin.
    destruct (classify_log_request env blob c req Hin) as [b ->].
    reflexivity.
  - intros c1 c2 Heq.
    assert (Hp : Gemini.prompt c1 = Gemini.prompt c2).
    { rewrite !prompt_take, Heq. reflexivity. }
    split; [exact Hp|].
    intros env blob. rewrite !classify_log.
    unfold Gemini.request. rewrite Hp. reflexivity.
Qed.

Lemma prompt_embeds_context_prefix_witness :
  (take 2000 (long_context 97) = take 2000 (long_context 98)
   /\ long_context 97 <> long_context 98
   /\ Gemini.readAsDataURL (replying None) clip = Some data_url)
  /\ Gemini.prompt (long_context 97) = Gemini.prompt (long_context 98)
  /\ (exists req : Gemini.Request,
        snd (Gemini.run (Gemini.classifyAudioWithGemini (replying None) clip
                           (long_context 97))) = [req]
        /\ Gemini.texts req
           = [Gemini.prompt_head ++ take 2000 (long_context 97)
                ++ Gemini.prompt_tail])
  /\ Gemini.texts (Gemini.request clip (Some (js "UklGRg==")) (long_context 97))
     = [Gemini.prompt (long_context 97)].
Proof.
  assert (Ht : take 2000 (long_context 97) = take 2000 (long_context 98))
    by (vm_compute; reflexivity).
  assert (Hne : long_context 97 <> long_context 98).
  { unfold long_context. intros H. apply app_inv_head in H. discriminate. }
  destruct prompt_embeds_context_prefix as (_ & Hsent & Htext & Hsame).
  split; [split; [exact Ht | split; [exact Hne | reflexivity]]|].
  split; [exact (proj1 (Hsame _ _ Ht))|].
  split; [exact (Hsent (replying None) clip (long_context 97) data_url eq_refl)|].
  apply (Htext (replying None) clip (long_context 97)).
  rewrite classify_log. cbn [replying answering Gemini.readAsDataURL].
  apply list_elem_of_singleton. vm_compute. reflexivity.
Defined.

(** C10. Every request the client sends carries one inline part, and its
    MIME type is [audio/wav] when the blob's type is the empty string and
    the blob's own type otherwise. When the audio can be read, exactly
    one request is sent. *)
Theorem request_mimeType_defaults_to_wav
    (env : Gemini.Platform) (blob : Blob.t) (c : jsstring) :
  (forall req : Gemini.Request,
      req ∈ snd (Gemini.run (Gemini.classifyAudioWithGemini env blob c)) ->
      (Blob.type blob = [] -> Gemini.mimeTypes req = [js "audio/wav"])
      /\ (Blob.type blob <> [] -> Gemini.mimeTypes req = [Blob.type blob]))
  /\ (forall d : jsstring,
        Gemini.readAsDataURL env blob = Some d ->
        snd (Gemini.run (Gemini.classifyAudioWithGemini env blob c))
        = [Gemini.request blob (split d 44%N !! 1) c]).
Proof.
  split.
  - intros req Hin.
    destruct (classify_log_request env blob c req Hin) as [b ->].
    unfold Gemini.mimeTypes, Gemini.request. cbn.
    split.
    + intros ->. reflexivity.
    + intros Hne. destruct (Blob.type blob); [contradiction | reflexivity].
  - intros d Hd. rewrite classify_log, Hd. reflexivity.
Qed.

Lemma request_mimeType_defaults_to_wav_witness :
  (Blob.type untyped_clip = [] /\ Blob.type clip <> [])
  /\ Gemini.mimeTypes
       (Gemini.request untyped_clip (Some (js "UklGRg==")) (js "{}"))
     = [js "audio/wav"]
  /\ Gemini.mimeTypes (Gemini.request clip (Some (js "UklGRg==")) (js "{}"))
     = [Blob.type clip]
  /\ snd (Gemini.run (Gemini.classifyAudioWithGemini offline untyped_clip
                        (js "{}")))
     = [Gemini.request untyped_clip (Some (js "UklGRg==")) (js "{}")].
Proof.
  assert (Hclip : Blob.type clip <> []) by discriminate.
  destruct (request_mimeType_defaults_to_wav offline untyped_clip (js "{}"))
    as [Hmime Hone].
  destruct (request_mimeType_defaults_to_wav offline clip (js "{}"))
    as [Hmime' _].
  pose proof (Hone data_url eq_refl) as Hlog.
  split; [split; [reflexivity | exact Hclip]|].
  split.
  { apply (Hmime _); [|reflexivity].
    rewrite Hlog. apply list_elem_of_singleton. vm_compute. reflexivity. }
  split.
  { apply (Hmime' _); [|exact Hclip].
    rewrite classify_log. apply list_elem_of_singleton. vm_compute.
    reflexivity. }
  rewrite Hlog. vm_compute. reflexivity.
Defined.

(** ** Invariants of the wizard over every trace of events *)

Lemma elem_of_alter_inv {A} (f : A -> A) (i : nat) (l : list A) (x : A) :
  x ∈ alter f i l -> exists y, y ∈ l /\ (x = y \/ x = f y).
Proof.
  intros Hx. apply list_elem_of_lookup in Hx as [j Hj].
  rewrite list_lookup_alter in Hj. case_decide as Hij.
  - subst j. revert Hj. destruct (l !! i) as [y|] eqn:Hy; [|discriminate].
    cbn. intros [= <-].
    exists y. split; [eapply list_elem_of_lookup_2; exact Hy | right; reflexivity].
  - exists x. split; [eapply list_elem_of_lookup_2; exact Hj | left; reflexivity].
Qed.

Lemma boot_invariant : Wizard.Invariant Wizard.boot.
Proof.
  constructor; cbn.
  - left. reflexivity.
  - discriminate.
  - intros f Hf. apply elem_of_nil in Hf. contradiction.
  - intros b Hb. apply elem_of_nil in Hb. contradiction.
  - discriminate.
  - discriminate.
  - intros r Hr. apply elem_of_nil in Hr. contradiction.
Qed.

Lemma startRecording_invariant
    (media : App.UserMedia) (rec : App.RecorderStart) (sys : Wizard.System) :
  Wizard.Invariant sys ->
  Wizard.Invariant
    (Wizard.with_world_app
       (App.startRecording media rec (Wizard.world sys, Wizard.app sys)) sys).
Proof.
  intros [Herr Hmod Hrd Hch Hst Hrc Hrcd].
  destruct media as [n|].
  - assert (Hrcd' : forall r,
        r ∈ Browser.recorders (Wizard.world sys)
            ++ [{| Browser.recorded := length (Browser.streams (Wizard.world sys));
                   Browser.recording := false |}] ->
        Browser.recorded r
        < length (Browser.streams (Wizard.world sys) ++ [replicate n Browser.live])).
    { intros r Hr. rewrite length_app. cbn.
      apply elem_of_app in Hr as [Hr|Hr].
      - specialize (Hrcd r Hr). lia.
      - apply list_elem_of_singleton in Hr. subst r. cbn. lia. }
    destruct rec; constructor; cbn; try assumption;
      try (right; right; left; reflexivity);
      try (intros b Hb; apply elem_of_nil in Hb; contradiction);
      try (intros i [= <-]; rewrite length_app; cbn; lia);
      try (intros r [= <-]; rewrite ?length_alter, length_app; cbn; lia).
    + intros r Hr. apply elem_of_alter_inv in Hr as (y & Hy & [-> | ->]);
        cbn; apply Hrcd'; exact Hy.
    + intros r Hr. rewrite length_app. cbn. specialize (Hrcd r Hr). lia.
  - constructor; cbn; try assumption. right; right; left; reflexivity.
Qed.

Lemma ondataavailable_invariant (data : Blob.t) (sys : Wizard.System) :
  Wizard.Invariant sys ->
  Wizard.Invariant
    (Wizard.with_app
       (App.mediaRecorder_ondataavailable data (Wizard.app sys)) sys).
Proof.
  intros [Herr Hmod Hrd Hch Hst Hrc Hrcd].
  unfold App.mediaRecorder_ondataavailable.
  case_bool_decide as Hsz; constructor; cbn; try assumption.
  intros b Hb. apply elem_of_app in Hb as [Hb|Hb]; [apply Hch; exact Hb|].
  apply list_elem_of_singleton in Hb. subst b. exact Hsz.
Qed.

Lemma onstop_invariant (stream : nat) (sys : Wizard.System) :
  Wizard.Invariant sys ->
  Wizard.Invariant
    (Wizard.with_world_app
       (App.mediaRecorder_onstop stream (Wizard.world sys, Wizard.app sys)) sys).
Proof.
  intros [Herr Hmod Hrd Hch Hst Hrc Hrcd].
  constructor; cbn; rewrite ?length_alter; try assumption.
  discriminate.
Qed.

Lemma stop_task_invariant (r : nat) (data : Blob.t) (sys : Wizard.System) :
  Wizard.Invariant sys ->
  Wizard.Invariant
    (Wizard.with_world_app
       (App.stop_task r data (Wizard.world sys, Wizard.app sys)) sys).
Proof.
  intros Hinv. unfold App.stop_task.
  destruct (Browser.recorders (Wizard.world sys) !! r) as [rec|].
  - apply (onstop_invariant (Browser.recorded rec)
             (Wizard.with_app
                (App.mediaRecorder_ondataavailable data (Wizard.app sys)) sys)).
    apply ondataavailable_invariant. exact Hinv.
  - destruct Hinv. constructor; cbn; assumption.
Qed.

Lemma stopRecording_invariant (sys : Wizard.System) :
  Wizard.Invariant sys ->
  Wizard.Invariant
    (Wizard.with_world_app
       (fst (App.stopRecording (Wizard.world sys, Wizard.app sys))) sys).
Proof.
  intros Hinv. unfold App.stopRecording.
  destruct (App.mediaRecorderRef (Wizard.app sys)) as [r|];
    [|destruct Hinv; constructor; cbn; assumption].
  destruct (App.isRecording (Wizard.app sys));
    [|destruct Hinv; constructor; cbn; assumption].
  destruct (Browser.recorders (Wizard.world sys) !! r) as [[st []]|];
    destruct Hinv as [Herr Hmod Hrd Hch Hst Hrc Hrcd];
    constructor; cbn; rewrite ?length_alter; try assumption.
  intros x Hx. apply elem_of_alter_inv in Hx as (y & Hy & [-> | ->]);
    cbn; apply Hrcd; exact Hy.
Qed.

Lemma dispatch_invariant (sys : Wizard.System) (e : Wizard.Event) :
  Wizard.Invariant sys -> Wizard.Invariant (Wizard.dispatch sys e).
Proof.
  intros Hinv. destruct e; cbn [Wizard.dispatch].
  - destruct Hinv. constructor; assumption.
  - destruct Hinv as [Herr Hmod Hrd Hch Hst Hrc Hrcd].
    destruct files as [|f rest].
    + constructor; cbn; rewrite ?app_nil_r; assumption.
    + rewrite handleModelUpload_first.
      destruct (endsWith (File.name f) (js ".ipynb")) eqn:E; cbn.
      * constructor; cbn; try assumption.
        intros x Hx. apply elem_of_app in Hx as [Hx|Hx]; [apply Hrd; exact Hx|].
        apply list_elem_of_singleton in Hx. subst x.
        apply endsWith_suffix. exact E.
      * constructor; cbn; rewrite ?app_nil_r; try assumption.
        right; left; reflexivity.
  - destruct (Wizard.reading sys !! reader) as [f|] eqn:Hf; [|exact Hinv].
    destruct Hinv as [Herr Hmod Hrd Hch Hst Hrc Hrcd].
    constructor; cbn; try assumption.
    + left; reflexivity.
    + intros m [= <-]. cbn. apply Hrd.
      eapply list_elem_of_lookup_2. exact Hf.
    + intros x Hx. apply Hrd.
      apply list_elem_of_lookup in Hx as [j Hj].
      rewrite list_lookup_delete in Hj. case_decide;
        eapply list_elem_of_lookup_2; exact Hj.
  - unfold App.handleAudioUpload.
    destruct (head files);
      destruct Hinv as [Herr Hmod Hrd Hch Hst Hrc Hrcd];
      constructor; cbn; try assumption.
    left; reflexivity.
  - apply startRecording_invariant. exact Hinv.
  - apply ondataavailable_invariant. exact Hinv.
  - apply stopRecording_invariant. exact Hinv.
  - apply stop_task_invariant. exact Hinv.
  - unfold App.runClassification_begin.
    destruct (App.audioFile (Wizard.app sys));
      [destruct (App.modelData (Wizard.app sys))|];
      destruct Hinv as [Herr Hmod Hrd Hch Hst Hrc Hrcd];
      constructor; cbn; assumption.
  - destruct Hinv as [Herr Hmod Hrd Hch Hst Hrc Hrcd].
    destruct outcome; constructor; cbn; try assumption.
    right; right; right; reflexivity.
  - destruct Hinv as [Herr Hmod Hrd Hch Hst Hrc Hrcd].
    constructor; cbn; assumption.
  - destruct Hinv as [Herr Hmod Hrd Hch Hst Hrc Hrcd].
    constructor; cbn; try assumption; discriminate.
Qed.

Lemma run_from_invariant (sys : Wizard.System) (events : list Wizard.Event) :
  Wizard.Invariant sys -> Wizard.Invariant (Wizard.run_from sys events).
Proof.
  revert sys. induction events as [|e es IH]; intros sys Hinv; [exact Hinv|].
  apply (IH (Wizard.dispatch sys e)). apply dispatch_invariant. exact Hinv.
Qed.

Lemma run_invariant (events : list Wizard.Event) :
  Wizard.Invariant (Wizard.run events).
Proof. apply run_from_invariant, boot_invariant. Qed.

Lemma last_returned_snoc (events : list Wizard.Event) (e : Wizard.Event) :
  Wizard.last_returned (events ++ [e])
  = match Wizard.returned e with
    | Some v => Some v
    | None => Wizard.last_returned events
    end.
Proof. unfold Wizard.last_returned. rewrite foldl_app. reflexivity. Qed.

(** An event that is not a call settling with a value either leaves the
    results step or leaves step and result as they were. *)
Lemma dispatch_keeps_result (sys : Wizard.System) (e : Wizard.Event) :
  Wizard.returned e = None ->
  App.currentStep (Wizard.app (Wizard.dispatch sys e)) = App.RESULTS ->
  App.currentStep (Wizard.app sys) = App.RESULTS
  /\ App.result (Wizard.app (Wizard.dispatch sys e)) = App.result (Wizard.app sys).
Proof.
  intros Hret. destruct e; cbn [Wizard.dispatch].
  - cbn. tauto.
  - destruct files as [|f rest]; [cbn; tauto|].
    rewrite handleModelUpload_first.
    destruct (negb (endsWith (File.name f) (js ".ipynb"))); cbn; tauto.
  - destruct (Wizard.reading sys !! reader); [cbn; discriminate | tauto].
  - unfold App.handleAudioUpload. destruct (head files); cbn; tauto.
  - destruct media as [n|]; [destruct rec|]; cbn; tauto.
  - unfold App.mediaRecorder_ondataavailable.
    case_bool_decide; cbn; tauto.
  - unfold App.stopRecording.
    destruct (App.mediaRecorderRef (Wizard.app sys)) as [r|]; [|cbn; tauto].
    destruct (App.isRecording (Wizard.app sys)); [|cbn; tauto].
    destruct (Browser.recorders (Wizard.world sys) !! r) as [[st []]|];
      cbn; tauto.
  - unfold App.stop_task.
    destruct (Browser.recorders (Wizard.world sys) !! recorder); [|cbn; tauto].
    unfold App.mediaRecorder_onstop, App.mediaRecorder_ondataavailable.
    case_bool_decide; cbn; tauto.
  - unfold App.runClassification_begin.
    destruct (App.audioFile (Wizard.app sys));
      [destruct (App.modelData (Wizard.app sys))|]; cbn;
      first [discriminate | tauto].
  - destruct outcome; [discriminate Hret | cbn; discriminate].
  - cbn. discriminate.
  - cbn. discriminate.
Qed.

(** X1. After every trace of events, a wizard at the results step shows
    the value of the last call that settled with one: some call has
    settled with a value, and [result] is the value of the last such
    call (the program's [null] when that value is [null]). *)
Theorem results_step_shows_last_returned (events : list Wizard.Event) :
  App.currentStep (Wizard.app (Wizard.run events)) = App.RESULTS ->
  exists v : JSON.Value,
    Wizard.last_returned events = Some v
    /\ App.result (Wizard.app (Wizard.run events)) = Some v.
Proof.
  induction events as [|e events IH] using rev_ind.
  - discriminate.
  - unfold Wizard.run, Wizard.run_from in *. rewrite foldl_app.
    cbn [foldl]. rewrite last_returned_snoc.
    destruct (Wizard.returned e) as [v|] eqn:Hret.
    + intros _. exists v. split; [reflexivity|].
      destruct e; try discriminate. destruct outcome; [|discriminate].
      injection Hret as ->. reflexivity.
    + intros Hstep.
      destruct (dispatch_keeps_result _ e Hret Hstep) as [Hprev Hres].
      destruct (IH Hprev) as (v & Hv & Hr).
      exists v. split; [exact Hv | rewrite Hres; exact Hr].
Qed.

Lemma results_step_shows_last_returned_witness :
  App.currentStep (Wizard.app (Wizard.run Scenarios.to_results)) = App.RESULTS
  /\ (exists v : JSON.Value,
        Wizard.last_returned Scenarios.to_results = Some v
        /\ App.result (Wizard.app (Wizard.run Scenarios.to_results)) = Some v)
  /\ Wizard.last_returned Scenarios.to_results = Some siren.
Proof.
  assert (H : App.currentStep (Wizard.app (Wizard.run Scenarios.to_results))
              = App.RESULTS) by reflexivity.
  split; [exact H|].
  split; [exact (results_step_shows_last_returned Scenarios.to_results H)|].
  reflexivity.
Defined.

(** X2. After every trace of events the error shown is absent or one of
    three messages: the invalid-file-type one, the microphone one or the
    classification one. *)
Theorem error_is_one_of_three (events : list Wizard.Event) :
  let e := App.error (Wizard.app (Wizard.run events)) in
  e = None
  \/ e = Some (js "Please upload a valid .ipynb file.")
  \/ e = Some (js "Microphone access denied.")
  \/ e = Some (js "Classification failed. Please check your API key or internet connection.").
Proof. apply (Wizard.inv_error _ (run_invariant events)). Qed.

(** X3. After every trace of events, the model metadata, when present,
    carries a name that ends in [.ipynb]: only accepted files are read,
    and only a finished read stores metadata. *)
Theorem loaded_model_name_ends_in_ipynb
    (events : list Wizard.Event) (m : App.ModelMetadata.t) :
  App.modelData (Wizard.app (Wizard.run events)) = Some m ->
  js ".ipynb" `suffix_of` App.ModelMetadata.name m.
Proof. apply (Wizard.inv_model _ (run_invariant events)). Qed.

Lemma loaded_model_name_ends_in_ipynb_witness :
  App.modelData (Wizard.app (Wizard.run Scenarios.to_results)) = Some notebook
  /\ js ".ipynb" `suffix_of` App.ModelMetadata.name notebook.
Proof.
  assert (H : App.modelData (Wizard.app (Wizard.run Scenarios.to_results))
              = Some notebook) by reflexivity.
  split; [exact H|].
  exact (loaded_model_name_ends_in_ipynb Scenarios.to_results notebook H).
Defined.

(** X4. After every trace of events, no chunk kept for the recording is
    empty: the data handler drops empty blobs and a start empties the
    list. *)
Theorem kept_chunks_are_nonempty
    (events : list Wizard.Event) (b : Blob.t) :
  b ∈ App.chunksRef (Wizard.app (Wizard.run events)) -> 0 < Blob.size b.
Proof. apply (Wizard.inv_chunks _ (run_invariant events)). Qed.

Lemma kept_chunks_are_nonempty_witness :
  App.chunksRef (Wizard.app (Wizard.run Scenarios.two_chunks)) = [clip]
  /\ 0 < Blob.size clip.
Proof.
  assert (H : App.chunksRef (Wizard.app (Wizard.run Scenarios.two_chunks))
              = [clip]) by reflexivity.
  split; [exact H|].
  apply (kept_chunks_are_nonempty Scenarios.two_chunks clip).
  rewrite H. apply list_elem_of_singleton. reflexivity.
Defined.

(** X5. A model change made while the remote call is pending does not
    cancel the call. When the call settles, the model metadata and the
    audio input are null, and yet a returned value moves the wizard to
    the results step with that value, and a thrown one moves it to the
    audio-input step with the generic message. *)
Theorem model_change_does_not_cancel_call
    (sys : Wizard.System) (a : Blob.t) (m : App.ModelMetadata.t)
    (r : Outcome JSON.Value) :
  App.audioFile (Wizard.app sys) = Some a ->
  App.modelData (Wizard.app sys) = Some m ->
  let s := Wizard.app
             (Wizard.run_from sys
                [Wizard.Classify; Wizard.ChangeModel; Wizard.Settled r]) in
  App.modelData s = None
  /\ App.audioFile s = None
  /\ match r with
     | Returned data =>
         App.currentStep s = App.RESULTS /\ App.result s = Some data
     | Thrown _ =>
         App.currentStep s = App.INPUT_AUDIO
         /\ App.error s = Some App.classification_failed
     end.
Proof.
  intros Ha Hm s. subst s. cbn [Wizard.run_from foldl Wizard.dispatch].
  unfold App.runClassification_begin. rewrite Ha, Hm.
  destruct r; cbn; repeat split.
Qed.

Lemma model_change_does_not_cancel_call_witness :
  (App.audioFile ready = Some clip /\ App.modelData ready = Some notebook)
  /\ App.currentStep
       (Wizard.app (Wizard.run (Scenarios.change_while_pending (Returned siren))))
     = App.RESULTS
  /\ App.modelData
       (Wizard.app (Wizard.run (Scenarios.change_while_pending (Returned siren))))
     = None.
Proof.
  split; [split; reflexivity|].
  pose proof (model_change_does_not_cancel_call
                (Wizard.with_app ready Wizard.boot) clip notebook
                (Returned siren) eq_refl eq_refl) as (Hm & _ & Hs & _).
  split; [exact Hs | exact Hm].
Defined.

(** X6. After [reset] and after the "Change" button the audio input is
    null, so a classification started then returns at its guard: it
    sends no request and changes nothing. *)
Theorem classify_after_reset_or_change_is_idle
    (env : Gemini.Platform) (s : App.State) :
  App.runClassification env (App.reset s) = (App.reset s, [])
  /\ App.runClassification env (App.changeModel s) = (App.changeModel s, []).
Proof. split; reflexivity. Qed.

(** X7. When the microphone is granted but the recorder cannot be
    constructed or started, the App shows the microphone message and
    still counts as recording: [isRecording] is true, the new stream is
    the recording stream and all its tracks are live, and the audio
    input is null. If the constructor threw and no recorder was made
    before, the stop button changes nothing. *)
Theorem recorder_failure_leaves_recording_on
    (n : nat) (rec : App.RecorderStart) (w : Browser.World) (s : App.State) :
  rec <> App.Started ->
  let r := App.startRecording (App.Granted n) rec (w, s) in
  let stream := length (Browser.streams w) in
  App.error (snd r) = Some (js "Microphone access denied.")
  /\ App.isRecording (snd r) = true
  /\ App.recordingStream (snd r) = Some stream
  /\ Browser.getTracks (fst r) stream = replicate n Browser.live
  /\ App.audioFile (snd r) = None
  /\ (rec = App.ConstructorThrows -> App.mediaRecorderRef s = None ->
      App.stopRecording r = (fst r, snd r, None)).
Proof.
  intros Hrec r stream. subst r stream.
  assert (Ht : forall (l : list (list Browser.ReadyState)) x,
             default [] ((l ++ [x]) !! length l) = x).
  { intros l x. rewrite list_lookup_middle by reflexivity. reflexivity. }
  destruct rec; [contradiction| |]; cbn; unfold Browser.getTracks; cbn;
    rewrite Ht; repeat split; try discriminate.
  intros _ Hnone. rewrite Hnone. reflexivity.
Qed.

Lemma recorder_failure_leaves_recording_on_witness :
  App.ConstructorThrows <> App.Started
  /\ App.isRecording
       (snd (App.startRecording (App.Granted 1) App.ConstructorThrows
               (Browser.empty, loaded))) = true
  /\ App.stopRecording
       (App.startRecording (App.Granted 1) App.ConstructorThrows
          (Browser.empty, loaded))
     = (fst (App.startRecording (App.Granted 1) App.ConstructorThrows
               (Browser.empty, loaded)),
        snd (App.startRecording (App.Granted 1) App.ConstructorThrows
               (Browser.empty, loaded)), None).
Proof.
  assert (H : App.ConstructorThrows <> App.Started) by discriminate.
  pose proof (recorder_failure_leaves_recording_on 1 App.ConstructorThrows
                Browser.empty loaded H) as (_ & Hrec & _ & _ & _ & Hstop).
  split; [exact H|]. split; [exact Hrec|].
  exact (Hstop eq_refl eq_refl).
Defined.

(** X8. A whole recording releases the microphone and touches nothing
    else: when the stop task has run, every track of the recording's
    stream is ended, the recorder is inactive, [isRecording] is false
    and no recording stream is set; the streams and recorders that
    existed before are as they were. *)
Theorem record_session_releases_microphone
    (n : nat) (datas : list Blob.t) (last : Blob.t)
    (w : Browser.World) (s : App.State) :
  let r := App.record_session n datas last (w, s) in
  let stream := length (Browser.streams w) in
  let recorder := length (Browser.recorders w) in
  Browser.getTracks (fst r) stream = replicate n Browser.ended
  /\ Browser.recorders (fst r) !! recorder
     = Some {| Browser.recorded := stream; Browser.recording := false |}
  /\ App.isRecording (snd r) = false
  /\ App.recordingStream (snd r) = None
  /\ (forall i, i < stream ->
        Browser.streams (fst r) !! i = Browser.streams w !! i)
  /\ (forall i, i < recorder ->
        Browser.recorders (fst r) !! i = Browser.recorders w !! i).
Proof.
  intros r stream recorder.
  destruct (record_session_result n datas last w s) as (_ & Hrs & Hrec & Htr).
  fold r in Hrs, Hrec, Htr. fold stream in Htr.
  split; [exact Htr|]. split; [|split; [exact Hrec|split; [exact Hrs|]]].
  - subst r. unfold App.record_session, App.startRecording.
    rewrite dataavailable_events_chunks.
    unfold App.stopRecording. cbn [App.mediaRecorderRef App.set_chunksRef
      App.set_mediaRecorderRef App.setAudioFile App.setIsRecording
      App.setRecordingStream App.isRecording].
    cbn [Browser.recorders Browser.set_recorders Browser.set_streams].
    rewrite list_lookup_alter_eq, list_lookup_middle by reflexivity.
    cbn [fmap option_fmap option_map Browser.recorded Browser.recording].
    unfold App.stop_task.
    cbn [Browser.recorders Browser.set_recorders Browser.set_streams].
    rewrite list_alter_alter_eq, list_lookup_alter_eq,
      list_lookup_middle by reflexivity.
    cbn [fmap option_fmap option_map Browser.recorded Browser.recording compose].
    unfold App.mediaRecorder_onstop. cbn [fst].
    unfold Browser.stop_tracks.
    cbn [Browser.recorders Browser.set_recorders Browser.set_streams].
    subst recorder.
    rewrite !list_lookup_alter_eq, list_lookup_middle by reflexivity.
    reflexivity.
  - subst r. unfold App.record_session, App.startRecording.
    rewrite dataavailable_events_chunks.
    unfold App.stopRecording. cbn [App.mediaRecorderRef App.set_chunksRef
      App.set_mediaRecorderRef App.setAudioFile App.setIsRecording
      App.setRecordingStream App.isRecording].
    cbn [Browser.recorders Browser.set_recorders Browser.set_streams].
    rewrite list_lookup_alter_eq, list_lookup_middle by reflexivity.
    cbn [fmap option_fmap option_map Browser.recorded Browser.recording].
    unfold App.stop_task.
    cbn [Browser.recorders Browser.set_recorders Browser.set_streams].
    rewrite list_alter_alter_eq, list_lookup_alter_eq,
      list_lookup_middle by reflexivity.
    cbn [fmap option_fmap option_map Browser.recorded Browser.recording compose].
    unfold App.mediaRecorder_onstop. cbn [fst].
    unfold Browser.stop_tracks.
    cbn [Browser.streams Browser.recorders Browser.set_recorders
         Browser.set_streams].
    fold stream recorder. split.
    + intros i Hi. rewrite list_lookup_alter_ne by lia.
      apply lookup_app_l. exact Hi.
    + intros i Hi. rewrite !list_lookup_alter_ne by lia.
      apply lookup_app_l. exact Hi.
Qed.

(** ** The client: reading the audio *)

Lemma split_go_no_sep (sep : N) (cur s : jsstring) :
  sep ∉ s -> split_go sep cur s = [reverse cur ++ s].
Proof.
  revert cur. induction s as [|c s IH]; intros cur Hs; cbn.
  - rewrite app_nil_r. reflexivity.
  - apply not_elem_of_cons in Hs as [Hc Hs].
    destruct (N.eqb_spec c sep) as [->|_]; [contradiction|].
    rewrite IH by exact Hs. rewrite reverse_cons, <- app_assoc. reflexivity.
Qed.

Lemma split_go_first (sep : N) (cur a b : jsstring) :
  sep ∉ a ->
  split_go sep cur (a ++ sep :: b) = (reverse cur ++ a) :: split_go sep [] b.
Proof.
  revert cur. induction a as [|c a IH]; intros cur Ha; cbn.
  - rewrite N.eqb_refl, app_nil_r. reflexivity.
  - apply not_elem_of_cons in Ha as [Hc Ha].
    destruct (N.eqb_spec c sep) as [->|_]; [contradiction|].
    rewrite IH by exact Ha. rewrite reverse_cons, <- app_assoc. reflexivity.
Qed.

(** X9. [blobToBase64] returns what stands between the first and the
    second comma of the data URL (or its end). For a data URL whose
    header has no comma and whose payload, as base64 text, has none, it
    is the payload; when the header itself has a comma, as a MIME type
    with a parameter list can, it is a piece of the header; with no
    comma at all it is [undefined]. No request is sent by it. *)
Theorem blobToBase64_between_commas
    (env : Gemini.Platform) (blob : Blob.t) (url : jsstring) :
  Gemini.readAsDataURL env blob = Some url ->
  (forall header payload : jsstring,
      url = header ++ 44%N :: payload ->
      44%N ∉ header -> 44%N ∉ payload ->
      Gemini.run (Gemini.blobToBase64 env blob) = (Returned (Some payload), []))
  /\ (forall header more rest : jsstring,
        url = header ++ 44%N :: more ++ 44%N :: rest ->
        44%N ∉ header -> 44%N ∉ more ->
        Gemini.run (Gemini.blobToBase64 env blob) = (Returned (Some more), []))
  /\ (44%N ∉ url ->
      Gemini.run (Gemini.blobToBase64 env blob) = (Returned None, [])).
Proof.
  intros Hurl. unfold Gemini.run, Gemini.blobToBase64. rewrite Hurl.
  unfold Gemini.ret, split. split; [|split].
  - intros header payload -> Hh Hp.
    rewrite split_go_first by exact Hh.
    rewrite split_go_no_sep by exact Hp. reflexivity.
  - intros header more rest -> Hh Hm.
    rewrite split_go_first by exact Hh.
    rewrite split_go_first by exact Hm. reflexivity.
  - intros Hn. rewrite split_go_no_sep by exact Hn. reflexivity.
Qed.

Lemma blobToBase64_between_commas_witness :
  Gemini.readAsDataURL offline clip = Some data_url
  /\ (data_url = js "data:audio/wav;base64" ++ 44%N :: js "UklGRg=="
      /\ (44%N ∉ js "data:audio/wav;base64") /\ (44%N ∉ js "UklGRg=="))
  /\ Gemini.run (Gemini.blobToBase64 offline clip)
     = (Returned (Some (js "UklGRg==")), []).
Proof.
  assert (H1 : 44%N ∉ js "data:audio/wav;base64").
  { apply (bool_decide_unpack _). vm_compute. exact I. }
  assert (H2 : 44%N ∉ js "UklGRg==").
  { apply (bool_decide_unpack _). vm_compute. exact I. }
  split; [reflexivity|]. split; [split; [reflexivity|split; assumption]|].
  exact (proj1 (blobToBase64_between_commas offline clip data_url eq_refl)
           (js "data:audio/wav;base64") (js "UklGRg==") eq_refl H1 H2).
Defined.

(** X10. When the audio cannot be read, the client throws the reader's
    event, not its generic error, and sends no request; the App still
    shows its one classification message and returns to the audio-input
    step, with nothing sent. *)
Theorem unreadable_audio_sends_nothing
    (env : Gemini.Platform) (blob : Blob.t) (c : jsstring) :
  Gemini.readAsDataURL env blob = None ->
  Gemini.run (Gemini.classifyAudioWithGemini env blob c)
  = (Thrown ProgressEvent, [])
  /\ forall (s : App.State) (m : App.ModelMetadata.t),
       App.audioFile s = Some blob -> App.modelData s = Some m ->
       App.ModelMetadata.content m = c ->
       snd (App.runClassification env s) = []
       /\ App.currentStep (fst (App.runClassification env s)) = App.INPUT_AUDIO
       /\ App.error (fst (App.runClassification env s))
          = Some App.classification_failed.
Proof.
  intros Hr.
  assert (Hrun : Gemini.run (Gemini.classifyAudioWithGemini env blob c)
                 = (Thrown ProgressEvent, [])).
  { rewrite classify_run, Hr. reflexivity. }
  split; [exact Hrun|].
  intros s m Ha Hm <-.
  rewrite (runClassification_unfold env s blob m Ha Hm), Hrun.
  repeat split.
Qed.

Lemma unreadable_audio_sends_nothing_witness :
  Gemini.readAsDataURL unreadable clip = None
  /\ Gemini.run (Gemini.classifyAudioWithGemini unreadable clip (js "{}"))
     = (Thrown ProgressEvent, [])
  /\ App.runClassification unreadable ready
     = (App.setCurrentStep App.INPUT_AUDIO
          (App.setError (Some App.classification_failed) ready), []).
Proof.
  destruct (unreadable_audio_sends_nothing unreadable clip (js "{}") eq_refl)
    as [Hrun _].
  split; [reflexivity|]. split; [exact Hrun|]. reflexivity.
Defined.

(** X11. One call of the client sends at most one request, and exactly
    one if and only if the audio could be read, whatever the reply is;
    [runClassification] sends what its one call of the client sends. *)
Theorem at_most_one_request
    (env : Gemini.Platform) (blob : Blob.t) (c : jsstring) :
  let log := snd (Gemini.run (Gemini.classifyAudioWithGemini env blob c)) in
  length log <= 1
  /\ (length log = 1 <-> is_Some (Gemini.readAsDataURL env blob))
  /\ forall s : App.State, length (snd (App.runClassification env s)) <= 1.
Proof.
  intros log. subst log. rewrite classify_log.
  split; [|split].
  - destruct (Gemini.readAsDataURL env blob); cbn; lia.
  - destruct (Gemini.readAsDataURL env blob); cbn; split;
      try (intros _; eexists; reflexivity); try reflexivity;
      try discriminate.
    intros [x Hx]. discriminate.
  - intros s. unfold App.runClassification.
    destruct (App.runClassification_begin s) as [[s1 [a c']]|]; [|cbn; lia].
    pose proof (classify_log env a c') as Hl.
    destruct (Gemini.run (Gemini.classifyAudioWithGemini env a c')) as [r l].
    cbn in *. subst l.
    destruct (Gemini.readAsDataURL env a); cbn; lia.
Qed.

(** X12. The prompt has 881 fixed code units and at most 2000 of the
    context: its length is 881 plus the smaller of 2000 and the
    context's length, and never more than 2881. *)
Theorem prompt_length (c : jsstring) :
  length (Gemini.prompt c) = 881 + (2000 `min` length c)
  /\ length (Gemini.prompt c) <= 2881.
Proof.
  assert (H : length (Gemini.prompt c) = 881 + (2000 `min` length c)).
  { rewrite prompt_take, !length_app, length_take.
    assert (Hh : length Gemini.prompt_head = 212) by (vm_compute; reflexivity).
    assert (Ht : length Gemini.prompt_tail = 669) by (vm_compute; reflexivity).
    rewrite Hh, Ht. lia. }
  split; [exact H | lia].
Qed.

(** ** What the results view is given *)

Lemma runClassification_parsed
    (env : Gemini.Platform) (s : App.State) (a : Blob.t)
    (m : App.ModelMetadata.t) (d : jsstring) (resp : Gemini.Response)
    (t : jsstring) (v : JSON.Value) :
  App.audioFile s = Some a -> App.modelData s = Some m ->
  Gemini.readAsDataURL env a = Some d ->
  Gemini.generateContent env
    (Gemini.request a (split d 44%N !! 1) (App.ModelMetadata.content m))
  = Returned resp ->
  Gemini.text resp = Some t -> JSON.parse t = Some v ->
  fst (App.runClassification env s)
  = App.setCurrentStep App.RESULTS
      (App.setResult (Some v) (App.setCurrentStep App.ANALYZING s)).
Proof.
  intros Ha Hm Hd Hg Ht Hp.
  rewrite (runClassification_unfold env s a m Ha Hm).
  rewrite classify_run, Hd. cbn [fst]. rewrite Hg, Ht.
  destruct t as [|u t]; [rewrite parse_empty in Hp; discriminate|].
  rewrite Hp. reflexivity.
Qed.



(** X14. A reply that parses to an object without an array under
    [probabilities] is accepted as a result: the wizard moves to the
    results step, the results view is the one rendered, and its
    [result.probabilities.map] has no array to map over. *)
Theorem result_without_probabilities_breaks_view
    (nonzero : jsstring -> bool)
    (env : Gemini.Platform) (s : App.State) (a : Blob.t)
    (m : App.ModelMetadata.t) (d : jsstring) (resp : Gemini.Response)
    (t : jsstring) (members : list (jsstring * JSON.Value)) :
  App.audioFile s = Some a -> App.modelData s = Some m ->
  Gemini.readAsDataURL env a = Some d ->
  Gemini.generateContent env
    (Gemini.request a (split d 44%N !! 1) (App.ModelMetadata.content m))
  = Returned resp ->
  Gemini.text resp = Some t -> JSON.parse t = Some (JSON.Object members) ->
  (forall items, JSON.lookup_member (js "probabilities") members
                 <> Some (JSON.Array items)) ->
  let s' := fst (App.runClassification env s) in
  Render.views nonzero s' = [Render.ResultsView (JSON.Object members)]
  /\ Render.cells (JSON.Object members) = None.
Proof.
  intros Ha Hm Hd Hg Ht Hp Hno s'. subst s'.
  rewrite (runClassification_parsed env s a m d resp t _ Ha Hm Hd Hg Ht Hp).
  split; [reflexivity|].
  unfold Render.cells. cbn [JSON.get].
  destruct (JSON.lookup_member (js "probabilities") members) as [[]|] eqn:E;
    try reflexivity.
  exfalso. exact (Hno _ eq_refl).
Qed.

Lemma result_without_probabilities_breaks_view_witness :
  JSON.parse label_only_reply = Some label_only
  /\ Render.views Scenarios.no_zero
       (fst (App.runClassification (replying (Some label_only_reply)) ready))
     = [Render.ResultsView label_only]
  /\ Render.cells label_only = None
  /\ Render.cells siren = Some [0].
Proof.
  assert (Hp : JSON.parse label_only_reply = Some label_only)
    by (vm_compute; reflexivity).
  assert (Hno : forall items,
             JSON.lookup_member (js "probabilities")
               [(js "label", JSON.String (js "Siren"))]
             <> Some (JSON.Array items)).
  { intros items. vm_compute. discriminate. }
  pose proof (result_without_probabilities_breaks_view Scenarios.no_zero
                (replying (Some label_only_reply)) ready clip notebook
                data_url {| Gemini.text := Some label_only_reply |}
                label_only_reply _ eq_refl eq_refl eq_refl eq_refl eq_refl
                Hp Hno) as [H1 H2].
  split; [exact Hp|]. split; [exact H1|]. split; [exact H2|].
  vm_compute. reflexivity.
Defined.

(** ** The widget between effect and cleanup *)

Lemma clean_is_open (w : Browser.World) (ctx : nat) :
  Lifecycle.Clean w -> Browser.is_open w ctx = false.
Proof.
  intros Hc. unfold Browser.is_open.
  destruct (Browser.contexts w !! ctx) as [x|] eqn:E; [|reflexivity].
  rewrite (Lifecycle.clean_contexts w Hc ctx x E). reflexivity.
Qed.

Lemma clean_close_previous (w : Browser.World) (v : Visualizer.State) :
  Lifecycle.Clean w -> Visualizer.close_previous w v = w.
Proof.
  intros Hc. unfold Visualizer.close_previous.
  destruct (Visualizer.audioContextRef v) as [ctx|]; [|reflexivity].
  rewrite (clean_is_open w ctx Hc). reflexivity.
Qed.

Lemma lookup_snoc_cases {A} (l : list A) (x y : A) (i : nat) :
  (l ++ [x]) !! i = Some y ->
  (i < length l /\ l !! i = Some y) \/ (i = length l /\ y = x).
Proof.
  rewrite lookup_snoc_Some. intros [[H1 H2]|[H1 H2]].
  - left. split; assumption.
  - right. split; [exact H1 | symmetry; exact H2].
Qed.

Lemma lookup_same_closed
    (f : Browser.AudioContext -> Browser.AudioContext) (k : nat)
    (l : list Browser.AudioContext) (i : nat) (x : Browser.AudioContext) :
  (forall c, Browser.closed (f c) = Browser.closed c) ->
  alter f k l !! i = Some x ->
  exists y, l !! i = Some y /\ Browser.closed y = Browser.closed x.
Proof.
  intros Hf Hx. rewrite list_lookup_alter in Hx. case_decide.
  - subst k. revert Hx. destruct (l !! i) as [y|]; [|discriminate].
    cbn. intros [= <-].
    exists y. split; [reflexivity | symmetry; apply Hf].
  - exists x. split; [exact Hx | reflexivity].
Qed.

Lemma open_is_new
    (l : list Browser.AudioContext) (new : Browser.AudioContext)
    (i : nat) (x : Browser.AudioContext) :
  (forall i c, l !! i = Some c -> Browser.closed c = true) ->
  (l ++ [new]) !! i = Some x -> Browser.closed x = false ->
  Some (length l) = Some i.
Proof.
  intros Hall Hx Hopen. apply lookup_snoc_cases in Hx as [[_ Hx]|[-> _]].
  - rewrite (Hall i x Hx) in Hopen. discriminate.
  - reflexivity.
Qed.

Lemma open_is_new_alter
    (f : Browser.AudioContext -> Browser.AudioContext)
    (l : list Browser.AudioContext) (new : Browser.AudioContext)
    (i : nat) (x : Browser.AudioContext) :
  (forall c, Browser.closed (f c) = Browser.closed c) ->
  (forall i c, l !! i = Some c -> Browser.closed c = true) ->
  alter f (length l) (l ++ [new]) !! i = Some x -> Browser.closed x = false ->
  Some (length l) = Some i.
Proof.
  intros Hf Hall Hx Hopen.
  apply lookup_same_closed in Hx as (y & Hy & Hc); [|exact Hf].
  rewrite <- Hc in Hopen. exact (open_is_new l new i y Hall Hy Hopen).
Qed.

Lemma open_is_new_alter2
    (f g : Browser.AudioContext -> Browser.AudioContext)
    (l : list Browser.AudioContext) (new : Browser.AudioContext)
    (i : nat) (x : Browser.AudioContext) :
  (forall c, Browser.closed (f c) = Browser.closed c) ->
  (forall c, Browser.closed (g c) = Browser.closed c) ->
  (forall i c, l !! i = Some c -> Browser.closed c = true) ->
  alter f (length l) (alter g (length l) (l ++ [new])) !! i = Some x ->
  Browser.closed x = false ->
  Some (length l) = Some i.
Proof.
  intros Hf Hg Hall Hx Hopen.
  apply lookup_same_closed in Hx as (y & Hy & Hc); [|exact Hf].
  rewrite <- Hc in Hopen.
  exact (open_is_new_alter g l new i y Hg Hall Hy Hopen).
Qed.

Lemma closed_after_close
    (l : list Browser.AudioContext) (new : Browser.AudioContext)
    (i : nat) (x : Browser.AudioContext) :
  (forall i c, l !! i = Some c -> Browser.closed c = true) ->
  alter (fun c => {| Browser.closed := true;
                     Browser.fftSize := Browser.fftSize c;
                     Browser.graph := Browser.graph c |})
        (length l) (l ++ [new]) !! i = Some x ->
  Browser.closed x = true.
Proof.
  intros Hall. rewrite list_lookup_alter. case_decide as Hi.
  - subst i. destruct ((l ++ [new]) !! length l); [|discriminate].
    cbn. intros [= <-]. reflexivity.
  - intros Hx. apply lookup_snoc_cases in Hx as [[_ Hx]|[Hx _]].
    + exact (Hall i x Hx).
    + congruence.
Qed.

Lemma silent_silence (a : Browser.AudioElement) :
  Lifecycle.silent a ->
  Lifecycle.silent
    {| Browser.paused := true; Browser.src := None;
       Browser.onplay := Browser.onplay a; Browser.onpause := Browser.onpause a;
       Browser.onended := Browser.onended a |}.
Proof. intros (_ & H1 & H2 & H3). repeat split; assumption. Qed.

Lemma all_silent_after_silence
    (l : list Browser.AudioElement) (old i : nat) (a : Browser.AudioElement) :
  (forall i a, l !! i = Some a -> Lifecycle.silent a) ->
  alter (fun a => {| Browser.paused := true; Browser.src := None;
                     Browser.onplay := Browser.onplay a;
                     Browser.onpause := Browser.onpause a;
                     Browser.onended := Browser.onended a |}) old l !! i
  = Some a ->
  Lifecycle.silent a.
Proof.
  intros Hall. rewrite list_lookup_alter. case_decide as Hi.
  - subst i. destruct (l !! old) as [y|] eqn:Hy; [|discriminate].
    cbn. intros [= <-]. apply silent_silence. exact (Hall old y Hy).
  - apply Hall.
Qed.

Lemma loud_is_new
    (l : list Browser.AudioElement) (e : Browser.AudioElement)
    (i : nat) (a : Browser.AudioElement) :
  (forall i a, l !! i = Some a -> Lifecycle.silent a) ->
  (l ++ [e]) !! i = Some a -> ¬ Lifecycle.silent a ->
  Some (length l) = Some i.
Proof.
  intros Hall Ha Hloud. apply lookup_snoc_cases in Ha as [[_ Ha]|[-> _]].
  - exfalso. exact (Hloud (Hall i a Ha)).
  - reflexivity.
Qed.

Lemma live_url_is_new (l : list bool) (i : nat) :
  (forall i, l !! i ≠ Some true) ->
  (l ++ [true]) !! i = Some true -> Some (length l) = Some i.
Proof.
  intros Hall Hi. apply lookup_snoc_cases in Hi as [[_ Hi]|[-> _]].
  - exfalso. exact (Hall i Hi).
  - reflexivity.
Qed.

Lemma clean_active
    (w : Browser.World) (v : Visualizer.State) (c : Visualizer.Closure) :
  Lifecycle.Clean w -> Lifecycle.Active w v c.
Proof.
  intros [Hfr Hnx Hctx Hurl Hel]. constructor.
  - exact Hnx.
  - left. exact Hfr.
  - intros i x Hx Ho. rewrite (Hctx i x Hx) in Ho. discriminate.
  - intros i Hi. exfalso. exact (Hurl i Hi).
  - intros i a Ha Hl. exfalso. exact (Hl (Hel i a Ha)).
Qed.

(** [initVisualizer_resume] for a run that is still mounted. *)
Section Resume.
Variables (p : Visualizer.Props) (w : Browser.World) (v : Visualizer.State)
          (c : Visualizer.Closure).
Hypothesis Hcanvas : Visualizer.canvasRef v = true.
Hypothesis Hmounted : Visualizer.mounted c = true.

Let ctx : nat := length (Browser.contexts w).
Let w1 : Browser.World :=
  Browser.set_contexts
    (fun l => l ++ [{| Browser.closed := false; Browser.fftSize := 256;
                       Browser.graph := [] |}]) w.
Let v1 : Visualizer.State := Visualizer.set_contextRefs ctx v.

Lemma resume_cases :
  Visualizer.initVisualizer_resume p (w, v, c)
  = match Visualizer.stream p, Visualizer.isRecording p,
          Visualizer.audioFile p with
    | Some s, true, _ =>
        let '(w', v') :=
          match Browser.getTracks w1 s with
          | _ :: _ => (Browser.connect ctx (Browser.StreamToAnalyser s) w1,
                       Visualizer.setIsPlaying true v1)
          | [] => (w1, v1)
          end in
        let '(w', v') := Visualizer.animate (w', v') in
        (w', v', c)
    | _, false, Some file =>
        let w' :=
          match Visualizer.audioElementRef v with
          | Some old => Browser.silence old w1
          | None => w1
          end in
        let url := length (Browser.urls w) in
        let el := length (Browser.elements w) in
        let w' := Browser.set_urls (fun l => l ++ [true]) w' in
        let w' :=
          Browser.set_elements
            (fun l => l ++ [{| Browser.paused := true; Browser.src := Some url;
                               Browser.onplay := true; Browser.onpause := true;
                               Browser.onended := true |}]) w' in
        let w' :=
          Browser.connect ctx (Browser.ElementToDestination el)
            (Browser.connect ctx (Browser.ElementToAnalyser el) w') in
        let '(w', v') :=
          Visualizer.animate (w', Visualizer.set_audioElementRef el v1) in
        (w', v', {| Visualizer.audioUrl := Some url;
                    Visualizer.audioEl := Some el;
                    Visualizer.mounted := true |})
    | _, _, _ =>
        (Browser.close_context ctx w1, Visualizer.setIsPlaying false v1, c)
    end.
Proof.
  unfold Visualizer.initVisualizer_resume.
  rewrite Hmounted. cbn [negb].
  fold ctx w1 v1.
  assert (Hd : forall wv, Visualizer.canvasRef (snd wv) = true ->
                 is_Some (Visualizer.analyserRef (snd wv)) ->
                 Visualizer.draw wv = Visualizer.animate wv).
  { intros [w' v'] Hc' Ha. cbn in Hc', Ha. unfold Visualizer.draw.
    rewrite Hc', (bool_decide_true _ Ha). reflexivity. }
  destruct (Visualizer.stream p) as [s|];
    destruct (Visualizer.isRecording p);
    destruct (Visualizer.audioFile p) as [file|]; try reflexivity.
  all: try (destruct (Browser.getTracks w1 s);
            rewrite Hd by (cbn; first [exact Hcanvas | eexists; reflexivity]);
            reflexivity).
  all: change (Visualizer.audioElementRef v1)
         with (Visualizer.audioElementRef v).
  all: destruct (Visualizer.audioElementRef v) as [old|].
  all: cbn zeta.
  all: rewrite Hd by (cbn; first [exact Hcanvas | eexists; reflexivity]).
  all: unfold Browser.silence; subst w1.
  all: cbn [Browser.urls Browser.elements Browser.set_urls
            Browser.set_elements Browser.set_contexts].
  all: rewrite ?length_alter.
  all: reflexivity.
Qed.

End Resume.

(** What the part after the [await] leaves, resumed in a browser that
    holds nothing of the widget. *)
Lemma resume_active
    (p : Visualizer.Props) (w : Browser.World) (v : Visualizer.State)
    (c : Visualizer.Closure) :
  Lifecycle.Clean w -> Visualizer.canvasRef v = true ->
  Visualizer.mounted c = true ->
  let r := Visualizer.initVisualizer_resume p (w, v, c) in
  Lifecycle.Active (fst (fst r)) (snd (fst r)) (snd r)
  /\ Browser.streams (fst (fst r)) = Browser.streams w
  /\ Browser.recorders (fst (fst r)) = Browser.recorders w
  /\ Visualizer.canvasRef (snd (fst r)) = true
  /\ Visualizer.mounted (snd r) = true
  /\ (Lifecycle.idle p = false -> Lifecycle.Looping (fst (fst r)) (snd (fst r)))
  /\ (Lifecycle.idle p = true ->
      Lifecycle.Clean (fst (fst r))
      /\ Visualizer.isPlaying (snd (fst r)) = false
      /\ Visualizer.requestRef (snd (fst r)) = Visualizer.requestRef v
      /\ length (Browser.contexts (fst (fst r)))
         = S (length (Browser.contexts w))).
Proof.
  intros Hc Hcanvas Hmounted r. subst r.
  rewrite (resume_cases p w v c Hcanvas Hmounted).
  destruct Hc as [Hfr Hnx Hctx Hurl Hel].
  assert (Hloop : forall (w' : Browser.World) (v' : Visualizer.State),
             Browser.frames w' = Browser.frames w ->
             Browser.next_frame w' = Browser.next_frame w ->
             Lifecycle.Looping (fst (Visualizer.animate (w', v')))
                               (snd (Visualizer.animate (w', v')))).
  { intros w' v' Hf' Hn'. exists (Browser.next_frame w). cbn.
    rewrite Hf', Hn', Hfr. repeat split. exact Hnx. }
  unfold Lifecycle.idle.
  destruct (Visualizer.stream p) as [st|] eqn:Hst;
    destruct (Visualizer.isRecording p) eqn:Hrec;
    destruct (Visualizer.audioFile p) as [file|] eqn:Hfile.
  all: try (destruct (Browser.getTracks _ st)).
  all: try (destruct (Visualizer.audioElementRef v) as [old|] eqn:Hold).
  all: cbn zeta.
  all: match goal with
       | |- context [Visualizer.animate (?w', ?v')] =>
           pose proof (Hloop w' v' eq_refl eq_refl) as Hl;
           destruct (Visualizer.animate (w', v')) as [w2 v2] eqn:Han;
           cbn in Han; injection Han as <- <-; cbn [fst snd] in Hl |- *
       | _ => cbn [fst snd]
       end.
  all: split; [|split; [reflexivity|split; [reflexivity|split;
         [exact Hcanvas|split; [first [exact Hmounted | reflexivity]|]]]]].
  all: try (split; [intros _; exact Hl|intros ?; discriminate]).
  all: try (split; [intros ?; discriminate|intros _]).
  all: try (constructor; cbn).
  all: try (right; exact Hl).
  all: try (left; exact Hfr).
  all: try exact Hfr.
  all: try exact Hnx.
  all: try (intros ?; lia).
  all: try (intros i Hi; exfalso; exact (Hurl i Hi)).
  all: try (intros i a Ha Hns; exfalso; apply Hns; exact (Hel i a Ha)).
  all: try exact Hurl.
  all: try exact Hel.
  all: try (intros i x; apply open_is_new; exact Hctx).
  all: try (intros i x; apply open_is_new_alter;
            [intros ?; reflexivity | exact Hctx]).
  all: try (intros i x; apply open_is_new_alter2;
            [intros ?; reflexivity | intros ?; reflexivity | exact Hctx]).
  all: try (intros i; apply live_url_is_new; exact Hurl).
  all: try (intros i a; apply loud_is_new; exact Hel).
  all: try (intros i a Ha Hl';
            pose proof (loud_is_new _ _ i a
                          (fun j b => all_silent_after_silence _ old j b Hel)
                          Ha Hl') as Hnew;
            rewrite length_alter in Hnew; exact Hnew).
  all: try (intros i x Hx Ho;
            rewrite (closed_after_close _ _ i x Hctx Hx) in Ho; discriminate).
  all: try (split; [reflexivity|split; [reflexivity|]];
            rewrite length_alter, length_app; cbn; lia).
  all: constructor; cbn; try assumption.
  all: intros i x; apply closed_after_close; exact Hctx.
Qed.

(** A continuation resumed after the cleanup of its run does nothing. *)
Lemma resume_unmounted
    (p : Visualizer.Props) (w : Browser.World) (v : Visualizer.State)
    (c : Visualizer.Closure) :
  Visualizer.mounted c = false ->
  Visualizer.initVisualizer_resume p (w, v, c) = (w, v, c).
Proof. intros H. unfold Visualizer.initVisualizer_resume. rewrite H. reflexivity. Qed.

Lemma begin_cases
    (lagging : bool) (p : Visualizer.Props)
    (w : Browser.World) (v : Visualizer.State) :
  Lifecycle.Clean w -> Visualizer.canvasRef v = true ->
  Lifecycle.begin lagging p (w, v)
  = if Visualizer.reads_open lagging w v
    then (w, v, Visualizer.fresh, true)
    else (Visualizer.initVisualizer_resume p (w, v, Visualizer.fresh), false).
Proof.
  intros Hc Hcanvas.
  unfold Lifecycle.begin, Visualizer.effect_start,
    Visualizer.initVisualizer_start.
  rewrite Hcanvas. cbn [negb].
  destruct (Visualizer.reads_open lagging w v); [|reflexivity].
  rewrite (clean_close_previous w v Hc). reflexivity.
Qed.

Lemma begin_invariant
    (lagging : bool) (p : Visualizer.Props)
    (w : Browser.World) (v : Visualizer.State) :
  Lifecycle.Clean w -> Visualizer.canvasRef v = true ->
  let cur := Lifecycle.begin lagging p (w, v) in
  Lifecycle.Invariant p cur
  /\ Browser.streams (fst (fst (fst cur))) = Browser.streams w
  /\ Browser.recorders (fst (fst (fst cur))) = Browser.recorders w.
Proof.
  intros Hc Hcanvas cur. subst cur.
  rewrite (begin_cases lagging p w v Hc Hcanvas).
  destruct (Visualizer.reads_open lagging w v).
  - cbn [fst snd]. split; [|split; reflexivity].
    constructor; cbn [fst snd]; try discriminate.
    + apply clean_active. exact Hc.
    + exact Hcanvas.
    + reflexivity.
    + intros _. exact Hc.
  - pose proof (resume_active p w v Visualizer.fresh Hc Hcanvas eq_refl)
      as (Ha & Hs & Hr & Hcv & Hm & Hl & Hi).
    destruct (Visualizer.initVisualizer_resume p (w, v, Visualizer.fresh))
      as [[w' v'] c']. cbn [fst snd] in *.
    split; [|split; assumption].
    constructor; cbn [fst snd]; try assumption; try discriminate.
    + intros _. exact Hl.
    + intros _ Hidle. destruct (Hi Hidle) as (H1 & H2 & _).
      split; assumption.
Qed.

Lemma run_frame_looping (id : nat) (w : Browser.World) (v : Visualizer.State) :
  Browser.next_frame w ≠ 0 ->
  Browser.frames w = [] \/ Lifecycle.Looping w v ->
  let r := Lifecycle.run_frame id (w, v) in
  Browser.next_frame (fst r) ≠ 0
  /\ (Browser.frames (fst r) = [] \/ Lifecycle.Looping (fst r) (snd r))
  /\ (Lifecycle.Looping w v -> Lifecycle.Looping (fst r) (snd r))
  /\ (Browser.frames w = [] -> r = (w, v))
  /\ Browser.contexts (fst r) = Browser.contexts w
  /\ Browser.urls (fst r) = Browser.urls w
  /\ Browser.elements (fst r) = Browser.elements w
  /\ Browser.streams (fst r) = Browser.streams w
  /\ Browser.recorders (fst r) = Browser.recorders w
  /\ Visualizer.audioContextRef (snd r) = Visualizer.audioContextRef v
  /\ Visualizer.canvasRef (snd r) = Visualizer.canvasRef v.
Proof.
  intros Hnx Hfr r. subst r. unfold Lifecycle.run_frame.
  case_bool_decide as Hin.
  - assert (Hl : Lifecycle.Looping w v).
    { destruct Hfr as [Hfr|Hl]; [|exact Hl].
      rewrite Hfr in Hin. apply elem_of_nil in Hin. contradiction. }
    destruct Hl as (id0 & Hf0 & Hr0 & Hn0).
    rewrite Hf0 in Hin. apply list_elem_of_singleton in Hin. subst id.
    assert (Hnew : Lifecycle.Looping
              (fst (Visualizer.animate
                      (Browser.set_frames (filter (fun i => i ≠ id0))
                         (Browser.next_frame w) w, v)))
              (snd (Visualizer.animate
                      (Browser.set_frames (filter (fun i => i ≠ id0))
                         (Browser.next_frame w) w, v)))).
    { exists (Browser.next_frame w). cbn. rewrite Hf0.
      rewrite filter_cons, filter_nil. case_decide; [contradiction|].
      repeat split. exact Hnx. }
    cbn in Hnew |- *.
    split; [lia|]. split; [right; exact Hnew|]. split; [intros _; exact Hnew|].
    split; [intros Hnil; rewrite Hnil in Hf0; discriminate|].
    repeat split.
  - cbn. split; [exact Hnx|]. split; [exact Hfr|]. split; [tauto|].
    repeat split.
Qed.

(** The play button changes nothing but the paused flag of elements. *)
Lemma togglePlay_same
    (allowed : bool) (w : Browser.World) (v : Visualizer.State) :
  let r := Lifecycle.togglePlay allowed (w, v) in
  snd r = v
  /\ Browser.frames (fst r) = Browser.frames w
  /\ Browser.next_frame (fst r) = Browser.next_frame w
  /\ Browser.contexts (fst r) = Browser.contexts w
  /\ Browser.urls (fst r) = Browser.urls w
  /\ Browser.streams (fst r) = Browser.streams w
  /\ Browser.recorders (fst r) = Browser.recorders w
  /\ (forall i a', Browser.elements (fst r) !! i = Some a' ->
        exists a, Browser.elements w !! i = Some a
                  /\ (Lifecycle.silent a' <-> Lifecycle.silent a)).
Proof.
  assert (Hsame : forall (b : bool) el i a',
    alter (fun a => {| Browser.paused := b; Browser.src := Browser.src a;
                       Browser.onplay := Browser.onplay a;
                       Browser.onpause := Browser.onpause a;
                       Browser.onended := Browser.onended a |}) el
          (Browser.elements w) !! i = Some a' ->
    exists a, Browser.elements w !! i = Some a
              /\ (Lifecycle.silent a' <-> Lifecycle.silent a)).
  { intros b el i a'. rewrite list_lookup_alter. case_decide as Hi.
    - subst i. destruct (Browser.elements w !! el) as [a|]; [|discriminate].
      cbn. intros [= <-]. exists a. split; [reflexivity|].
      unfold Lifecycle.silent. cbn. tauto.
    - intros H. exists a'. split; [exact H | tauto]. }
  assert (Hid : forall i a', Browser.elements w !! i = Some a' ->
    exists a, Browser.elements w !! i = Some a
              /\ (Lifecycle.silent a' <-> Lifecycle.silent a)).
  { intros i a' H. exists a'. split; [exact H | tauto]. }
  unfold Lifecycle.togglePlay, Lifecycle.pause, Lifecycle.play.
  destruct (Visualizer.audioElementRef v) as [el|];
    [destruct (Visualizer.isPlaying v); [|destruct allowed]|];
    cbn; repeat split; first [apply Hsame | apply Hid].
Qed.

Lemma active_transfer
    (w w' : Browser.World) (v v' : Visualizer.State) (c : Visualizer.Closure) :
  Browser.frames w' = Browser.frames w ->
  Browser.next_frame w' = Browser.next_frame w ->
  Browser.contexts w' = Browser.contexts w ->
  Browser.urls w' = Browser.urls w ->
  (forall i a', Browser.elements w' !! i = Some a' ->
     exists a, Browser.elements w !! i = Some a
               /\ (Lifecycle.silent a' <-> Lifecycle.silent a)) ->
  Visualizer.requestRef v' = Visualizer.requestRef v ->
  Visualizer.audioContextRef v' = Visualizer.audioContextRef v ->
  (Lifecycle.Looping w v -> Lifecycle.Looping w' v')
  /\ (Lifecycle.Active w v c -> Lifecycle.Active w' v' c)
  /\ (Lifecycle.Clean w -> Lifecycle.Clean w').
Proof.
  intros Hf Hn Hc Hu He Hr Ha.
  assert (Hloop : Lifecycle.Looping w v -> Lifecycle.Looping w' v').
  { intros (id & H1 & H2 & H3). exists id. rewrite Hf, Hr.
    repeat split; assumption. }
  split; [exact Hloop|]. split.
  - intros [Hnx Hfr Hctx Hurl Hel]. constructor.
    + rewrite Hn. exact Hnx.
    + destruct Hfr as [Hfr|Hl]; [left; rewrite Hf; exact Hfr|right; auto].
    + rewrite Hc, Ha. exact Hctx.
    + rewrite Hu. exact Hurl.
    + intros i a' Ha' Hloud. destruct (He i a' Ha') as (a & Hx & Hs).
      apply (Hel i a Hx). intros Hsil. apply Hloud, Hs, Hsil.
  - intros [Hfr Hnx Hctx Hurl Hel]. constructor.
    + rewrite Hf. exact Hfr.
    + rewrite Hn. exact Hnx.
    + rewrite Hc. exact Hctx.
    + rewrite Hu. exact Hurl.
    + intros i a' Ha'. destruct (He i a' Ha') as (a & Hx & Hs).
      apply Hs. exact (Hel i a Hx).
Qed.

Lemma media_event_refs
    (h : Browser.AudioElement -> bool) (b : bool)
    (w : Browser.World) (v : Visualizer.State) (c : Visualizer.Closure) :
  let v' := Lifecycle.media_event h b w v c in
  Visualizer.requestRef v' = Visualizer.requestRef v
  /\ Visualizer.audioContextRef v' = Visualizer.audioContextRef v
  /\ Visualizer.canvasRef v' = Visualizer.canvasRef v.
Proof.
  unfold Lifecycle.media_event. repeat case_match; repeat split.
Qed.

(** In a browser that holds nothing of the widget no handler is
    attached, so a media event changes nothing. *)
Lemma media_event_clean
    (h : Browser.AudioElement -> bool) (b : bool)
    (w : Browser.World) (v : Visualizer.State) (c : Visualizer.Closure) :
  (forall a, Lifecycle.silent a -> h a = false) ->
  Lifecycle.Clean w -> Lifecycle.media_event h b w v c = v.
Proof.
  intros Hh Hc. unfold Lifecycle.media_event.
  destruct (Visualizer.audioEl c) as [el|]; [|reflexivity].
  destruct (Browser.elements w !! el) as [a|] eqn:Ha; [|reflexivity].
  rewrite (Hh a (Lifecycle.clean_elements w Hc el a Ha)). reflexivity.
Qed.

Lemma media_event_invariant
    (p : Visualizer.Props) (h : Browser.AudioElement -> bool) (b : bool)
    (w : Browser.World) (v : Visualizer.State) (c : Visualizer.Closure)
    (awaiting : bool) :
  (forall a, Lifecycle.silent a -> h a = false) ->
  Lifecycle.Invariant p (w, v, c, awaiting) ->
  Lifecycle.Invariant p (w, Lifecycle.media_event h b w v c, c, awaiting).
Proof.
  intros Hh [Ha Hcv Hm Haw Hl Hi]. cbn [fst snd] in *.
  destruct (media_event_refs h b w v c) as (Hr & Hc & Hcan).
  destruct (active_transfer w w v (Lifecycle.media_event h b w v c) c
              eq_refl eq_refl eq_refl eq_refl
              (fun i a' H => ex_intro _ a' (conj H (iff_refl _))) Hr Hc)
    as (Tl & Ta & _).
  constructor; cbn [fst snd].
  - apply Ta, Ha.
  - rewrite Hcan. exact Hcv.
  - exact Hm.
  - exact Haw.
  - intros H1 H2. apply Tl, Hl; assumption.
  - intros H1 H2. destruct (Hi H1 H2) as [Hclean Hplay].
    split; [exact Hclean|]. rewrite (media_event_clean h b w v c Hh Hclean).
    exact Hplay.
Qed.

Lemma act_invariant
    (p : Visualizer.Props) (a : Lifecycle.Activity) (cur : Lifecycle.Current) :
  Lifecycle.Invariant p cur ->
  Lifecycle.Invariant p (Lifecycle.act p cur a)
  /\ Browser.streams (fst (fst (fst (Lifecycle.act p cur a))))
     = Browser.streams (fst (fst (fst cur)))
  /\ Browser.recorders (fst (fst (fst (Lifecycle.act p cur a))))
     = Browser.recorders (fst (fst (fst cur))).
Proof.
  destruct cur as [[[w v] c] awaiting]. intros Hinv.
  destruct a as [id|allowed| | | |]; cbn [Lifecycle.act fst snd].
  - destruct Hinv as [Ha Hcv Hm Haw Hl Hi]. cbn [fst snd] in *.
    pose proof (run_frame_looping id w v (Lifecycle.active_next _ _ _ Ha)
                  (Lifecycle.active_frames _ _ _ Ha))
      as (H1 & H2 & H3 & H4 & H5 & H6 & H7 & H8 & H9 & H10 & H11).
    destruct (Lifecycle.run_frame id (w, v)) as [w' v'] eqn:Hrf.
    cbn [fst snd] in *.
    split; [|split; assumption].
    constructor; cbn [fst snd].
    + destruct Ha as [Anx Afr Actx Aurl Ael].
      constructor; rewrite ?H5, ?H6, ?H7, ?H10; assumption.
    + rewrite H11. exact Hcv.
    + exact Hm.
    + intros Hw. specialize (Haw Hw).
      injection (H4 (Lifecycle.clean_frames _ Haw)) as -> ->. exact Haw.
    + intros Hw Hidle. apply H3, Hl; assumption.
    + intros Hw Hidle. destruct (Hi Hw Hidle) as [Hclean Hplay].
      injection (H4 (Lifecycle.clean_frames _ Hclean)) as -> ->.
      split; assumption.
  - destruct (Lifecycle.overlay_rendered p);
      [|split; [exact Hinv | split; reflexivity]].
    destruct (togglePlay_same allowed w v)
      as (Hv & Hf & Hn & Hc & Hu & Hs & Hr & He).
    destruct (Lifecycle.togglePlay allowed (w, v)) as [w' v'].
    cbn [fst snd] in *. subst v'.
    destruct (active_transfer w w' v v c Hf Hn Hc Hu He eq_refl eq_refl)
      as (Tl & Ta & Tc).
    destruct Hinv as [Ha Hcv Hm Haw Hl Hi]. cbn [fst snd] in *.
    split; [|split; assumption].
    constructor; cbn [fst snd]; auto.
    intros Hw Hidle. destruct (Hi Hw Hidle) as [Hclean Hplay]. auto.
  - split; [|split; reflexivity].
    apply media_event_invariant; [|exact Hinv].
    intros a (_ & H & _ & _). exact H.
  - split; [|split; reflexivity].
    apply media_event_invariant; [|exact Hinv].
    intros a (_ & _ & H & _). exact H.
  - split; [|split; reflexivity].
    apply media_event_invariant; [|exact Hinv].
    intros a (_ & _ & _ & H). exact H.
  - destruct awaiting; [|split; [exact Hinv | split; reflexivity]].
    destruct Hinv as [Ha Hcv Hm Haw Hl Hi]. cbn [fst snd] in *.
    pose proof (resume_active p w v c (Haw eq_refl) Hcv Hm)
      as (Ra & Rs & Rr & Rcv & Rm & Rl & Ri).
    destruct (Visualizer.initVisualizer_resume p (w, v, c)) as [[w' v'] c'].
    cbn [fst snd] in *.
    split; [|split; assumption].
    constructor; cbn [fst snd]; try assumption; try discriminate.
    + intros _. exact Rl.
    + intros _ Hidle. destruct (Ri Hidle) as (H1 & H2 & _). split; assumption.
Qed.

Lemma acts_invariant
    (p : Visualizer.Props) (acts : list Lifecycle.Activity)
    (cur : Lifecycle.Current) :
  Lifecycle.Invariant p cur ->
  Lifecycle.Invariant p (foldl (Lifecycle.act p) cur acts)
  /\ Browser.streams (fst (fst (fst (foldl (Lifecycle.act p) cur acts))))
     = Browser.streams (fst (fst (fst cur)))
  /\ Browser.recorders (fst (fst (fst (foldl (Lifecycle.act p) cur acts))))
     = Browser.recorders (fst (fst (fst cur))).
Proof.
  revert cur. induction acts as [|a acts IH]; intros cur Hinv.
  - cbn. split; [exact Hinv | split; reflexivity].
  - cbn [foldl].
    destruct (act_invariant p a cur Hinv) as (H1 & H2 & H3).
    destruct (IH _ H1) as (K1 & K2 & K3).
    split; [exact K1|]. split; congruence.
Qed.

Lemma act_keeps_contexts
    (p : Visualizer.Props) (a : Lifecycle.Activity) (cur : Lifecycle.Current) :
  (a = Lifecycle.Settle -> snd cur = false) ->
  Browser.contexts (fst (fst (fst (Lifecycle.act p cur a))))
  = Browser.contexts (fst (fst (fst cur)))
  /\ snd (Lifecycle.act p cur a) = snd cur.
Proof.
  destruct cur as [[[w v] c] awaiting]. intros Hs.
  destruct a as [id|allowed| | | |]; cbn [Lifecycle.act fst snd] in *.
  - unfold Lifecycle.run_frame. case_bool_decide; cbn; split; reflexivity.
  - destruct (Lifecycle.overlay_rendered p); [|split; reflexivity].
    destruct (togglePlay_same allowed w v) as (_ & _ & _ & Hc & _).
    destruct (Lifecycle.togglePlay allowed (w, v)) as [w' v'].
    cbn [fst snd] in *. split; [exact Hc | reflexivity].
  - split; reflexivity.
  - split; reflexivity.
  - split; reflexivity.
  - rewrite (Hs eq_refl). split; reflexivity.
Qed.

Lemma cancel_looping (w : Browser.World) (v : Visualizer.State) :
  Browser.frames w = [] \/ Lifecycle.Looping w v ->
  match Visualizer.requestRef v with
  | Some id =>
      if bool_decide (id ≠ 0)
      then filter (fun i => i ≠ id) (Browser.frames w)
      else Browser.frames w
  | None => Browser.frames w
  end = [].
Proof.
  intros [Hfr|(id & Hf & Hr & Hn)].
  - rewrite Hfr. repeat case_match; reflexivity.
  - rewrite Hr, Hf, (bool_decide_true _ Hn).
    rewrite filter_cons, filter_nil. case_decide; [contradiction | reflexivity].
Qed.

Lemma cleanup_world
    (w : Browser.World) (v : Visualizer.State) (c : Visualizer.Closure) :
  let w' := fst (fst (Visualizer.cleanup (w, v, c))) in
  Browser.frames w'
  = match Visualizer.requestRef v with
    | Some id =>
        if bool_decide (id ≠ 0)
        then filter (fun i => i ≠ id) (Browser.frames w)
        else Browser.frames w
    | None => Browser.frames w
    end
  /\ Browser.next_frame w' = Browser.next_frame w
  /\ Browser.contexts w'
     = match Visualizer.audioContextRef v with
       | Some ctx =>
           if Browser.is_open w ctx
           then Browser.contexts (Browser.close_context ctx w)
           else Browser.contexts w
       | None => Browser.contexts w
       end
  /\ Browser.elements w'
     = match Visualizer.audioEl c with
       | Some el =>
           Browser.elements (Browser.detach_handlers el (Browser.silence el w))
       | None => Browser.elements w
       end
  /\ Browser.urls w'
     = match Visualizer.audioUrl c with
       | Some url => Browser.urls (Browser.revokeObjectURL url w)
       | None => Browser.urls w
       end
  /\ Browser.recorders w' = Browser.recorders w
  /\ snd (fst (Visualizer.cleanup (w, v, c))) = v
  /\ Visualizer.mounted (snd (Visualizer.cleanup (w, v, c))) = false.
Proof.
  unfold Visualizer.cleanup, Browser.is_open.
  destruct (Visualizer.requestRef v) as [id|];
    [destruct (bool_decide (id ≠ 0))|];
    (destruct (Visualizer.audioContextRef v) as [ctx|];
     [cbn; destruct (Browser.contexts w !! ctx) as [x|];
      [destruct (Browser.closed x)|]|]);
    destruct (Visualizer.audioEl c); destruct (Visualizer.audioUrl c);
    cbn; repeat split.
Qed.

Lemma silent_dec (a : Browser.AudioElement) :
  Lifecycle.silent a \/ ¬ Lifecycle.silent a.
Proof.
  unfold Lifecycle.silent.
  destruct (Browser.src a), (Browser.onplay a),
    (Browser.onpause a), (Browser.onended a);
    first [left; repeat split; reflexivity
          |right; intros (? & ? & ? & ?); discriminate].
Qed.

(** The cleanup of a current run leaves nothing of the widget. *)
Lemma cleanup_clean
    (w : Browser.World) (v : Visualizer.State) (c : Visualizer.Closure) :
  Lifecycle.Active w v c ->
  Lifecycle.Clean (fst (fst (Visualizer.cleanup (w, v, c)))).
Proof.
  intros [Hnx Hfr Hctx Hurl Hel].
  destruct (cleanup_world w v c) as (Kf & Kn & Kc & Ke & Ku & _).
  constructor.
  - rewrite Kf. apply cancel_looping. exact Hfr.
  - rewrite Kn. exact Hnx.
  - rewrite Kc. intros i x Hx.
    destruct (Browser.closed x) eqn:Hcl; [reflexivity|exfalso].
    destruct (Visualizer.audioContextRef v) as [ctx|] eqn:Hv.
    + destruct (Browser.is_open w ctx) eqn:Hop.
      * cbn in Hx. rewrite list_lookup_alter in Hx. case_decide as Hi.
        -- subst i. revert Hx.
           destruct (Browser.contexts w !! ctx); [|discriminate].
           cbn. intros [= <-]. discriminate.
        -- specialize (Hctx i x Hx Hcl). congruence.
      * pose proof (Hctx i x Hx Hcl) as [= <-].
        unfold Browser.is_open in Hop. rewrite Hx, Hcl in Hop. discriminate.
    + specialize (Hctx i x Hx Hcl). discriminate.
  - rewrite Ku. intros i Hi.
    destruct (Visualizer.audioUrl c) as [url|] eqn:Hc.
    + cbn in Hi. rewrite list_lookup_alter in Hi. case_decide as Hiu.
      * subst i. revert Hi. destruct (Browser.urls w !! url); discriminate.
      * specialize (Hurl i Hi). congruence.
    + specialize (Hurl i Hi). discriminate.
  - rewrite Ke. intros i a Ha.
    destruct (silent_dec a) as [Hs|Hloud]; [exact Hs|exfalso].
    destruct (Visualizer.audioEl c) as [el|] eqn:Hc.
    + cbn in Ha. rewrite list_alter_alter_eq, list_lookup_alter in Ha.
      case_decide as Hi.
      * subst i. revert Ha.
        destruct (Browser.elements w !! el); [|discriminate].
        cbn. intros [= <-]. apply Hloud. repeat split.
      * specialize (Hel i a Ha Hloud). congruence.
    + specialize (Hel i a Ha Hloud). discriminate.
Qed.

Lemma cycle_clean
    (w : Browser.World) (v : Visualizer.State)
    (run : bool * Visualizer.Props * list Lifecycle.Activity) :
  Lifecycle.Clean w -> Visualizer.canvasRef v = true ->
  let r := Lifecycle.cycle (w, v) run in
  Lifecycle.Clean (fst r)
  /\ Visualizer.canvasRef (snd r) = true
  /\ Browser.streams (fst r) = Browser.streams w
  /\ Browser.recorders (fst r) = Browser.recorders w.
Proof.
  intros Hc Hcanvas r. subst r. destruct run as [[lagging p] acts].
  unfold Lifecycle.cycle.
  pose proof (begin_invariant lagging p w v Hc Hcanvas) as (Hinv & Hs & Hr).
  pose proof (acts_invariant p acts _ Hinv) as (Hinv' & Hs' & Hr').
  destruct (foldl (Lifecycle.act p) (Lifecycle.begin lagging p (w, v)) acts)
    as [[[w2 v2] c2] awaiting].
  cbn [fst snd] in *.
  destruct Hinv' as [Ha Hcv _ _ _ _]. cbn [fst snd] in *.
  pose proof (cleanup_clean w2 v2 c2 Ha) as Hclean.
  pose proof (cleanup_streams w2 v2 c2) as Hst.
  destruct (cleanup_world w2 v2 c2) as (_ & _ & _ & _ & _ & Hrc & Hv & Hm).
  destruct (Visualizer.cleanup (w2, v2, c2)) as [[w3 v3] c3].
  cbn [fst snd] in *. subst v3.
  assert (Hgoal : Lifecycle.Clean w3 /\ Visualizer.canvasRef v2 = true
                  /\ Browser.streams w3 = Browser.streams w
                  /\ Browser.recorders w3 = Browser.recorders w).
  { split; [exact Hclean|]. split; [exact Hcv|]. split; congruence. }
  destruct awaiting; [|exact Hgoal].
  rewrite (resume_unmounted p w3 v2 c3 Hm). exact Hgoal.
Qed.

Lemma clean_empty : Lifecycle.Clean Browser.empty.
Proof.
  constructor; cbn.
  - reflexivity.
  - discriminate.
  - intros i c H. rewrite lookup_nil in H. discriminate.
  - intros i H. rewrite lookup_nil in H. discriminate.
  - intros i a H. rewrite lookup_nil in H. discriminate.
Qed.

Lemma clean_recording : Lifecycle.Clean (fst recording).
Proof.
  constructor; cbn.
  - reflexivity.
  - discriminate.
  - intros i c H. rewrite lookup_nil in H. discriminate.
  - intros i H. rewrite lookup_nil in H. discriminate.
  - intros i a H. rewrite lookup_nil in H. discriminate.
Qed.

(** While nothing is recorded and no file is shown, a current run
    creates one audio context, when its [initVisualizer] gets past the
    [await], and none before; it requests no repaint. *)
Lemma act_idle
    (p : Visualizer.Props) (n : nat) (a : Lifecycle.Activity)
    (cur : Lifecycle.Current) :
  Lifecycle.idle p = true ->
  Lifecycle.Invariant p cur ->
  length (Browser.contexts (fst (fst (fst cur))))
  = (if snd cur then n else S n) ->
  let cur' := Lifecycle.act p cur a in
  length (Browser.contexts (fst (fst (fst cur'))))
  = (if snd cur' then n else S n)
  /\ Visualizer.requestRef (snd (fst (fst cur')))
     = Visualizer.requestRef (snd (fst (fst cur))).
Proof.
  intros Hidle Hinv Hlen cur'. subst cur'.
  destruct cur as [[[w v] c] awaiting]. cbn [fst snd] in *.
  assert (Hclean : Lifecycle.Clean w).
  { destruct Hinv as [_ _ _ Haw _ Hi]. cbn [fst snd] in *.
    destruct awaiting; [exact (Haw eq_refl)|].
    exact (proj1 (Hi eq_refl Hidle)). }
  destruct (Lifecycle.settles a awaiting) eqn:Hst.
  - destruct a; try discriminate. destruct awaiting; [|discriminate].
    cbn [Lifecycle.act].
    destruct Hinv as [_ Hcv Hm _ _ _]. cbn [fst snd] in *.
    pose proof (resume_active p w v c Hclean Hcv Hm)
      as (_ & _ & _ & _ & _ & _ & Ri).
    destruct (Ri Hidle) as (_ & _ & Hr & Hl).
    destruct (Visualizer.initVisualizer_resume p (w, v, c)) as [[w' v'] c'].
    cbn [fst snd] in *. rewrite Hl, Hlen. split; [reflexivity | exact Hr].
  - destruct (act_keeps_contexts p a (w, v, c, awaiting)) as [Hc Ha].
    { intros ->. cbn [snd]. destruct awaiting; [discriminate|reflexivity]. }
    cbn [fst snd] in *. rewrite Hc, Ha. split; [exact Hlen|].
    destruct a as [id|allowed| | | |]; cbn [Lifecycle.act fst snd].
    + destruct Hinv as [Hact _ _ _ _ _]. cbn [fst snd] in *.
      pose proof (run_frame_looping id w v (Lifecycle.active_next _ _ _ Hact)
                    (Lifecycle.active_frames _ _ _ Hact))
        as (_ & _ & _ & H4 & _).
      rewrite (H4 (Lifecycle.clean_frames _ Hclean)). reflexivity.
    + destruct (Lifecycle.overlay_rendered p); [|reflexivity].
      destruct (togglePlay_same allowed w v) as (Hv & _).
      destruct (Lifecycle.togglePlay allowed (w, v)) as [w' v'].
      cbn [fst snd] in *. subst v'. reflexivity.
    + apply media_event_refs.
    + apply media_event_refs.
    + apply media_event_refs.
    + destruct awaiting; [discriminate | reflexivity].
Qed.

Lemma acts_idle
    (p : Visualizer.Props) (n : nat) (acts : list Lifecycle.Activity)
    (cur : Lifecycle.Current) :
  Lifecycle.idle p = true ->
  Lifecycle.Invariant p cur ->
  length (Browser.contexts (fst (fst (fst cur))))
  = (if snd cur then n else S n) ->
  let cur' := foldl (Lifecycle.act p) cur acts in
  length (Browser.contexts (fst (fst (fst cur'))))
  = (if snd cur' then n else S n)
  /\ Visualizer.requestRef (snd (fst (fst cur')))
     = Visualizer.requestRef (snd (fst (fst cur))).
Proof.
  intros Hidle. revert cur.
  induction acts as [|a acts IH]; intros cur Hinv Hlen;
    [split; [exact Hlen | reflexivity]|].
  cbn [foldl].
  destruct (act_idle p n a cur Hidle Hinv Hlen) as [H1 H2].
  destruct (IH (Lifecycle.act p cur a)
              (proj1 (act_invariant p a cur Hinv)) H1) as [K1 K2].
  split; [exact K1 | congruence].
Qed.

Lemma clean_after_recording : Lifecycle.Clean (fst Scenarios.after_recording).
Proof.
  apply (cycle_clean (fst recording) Visualizer.mount
           (false, Scenarios.recording_props,
            [Lifecycle.Frame 1; Lifecycle.Frame 2])
           clean_recording eq_refl).
Qed.

(** X15. From a browser that holds nothing of the widget and with the
    canvas mounted, let the effect run any number of times, each run for
    its own props and in a browser that reports a closed context at once
    or late; while a run is current any repaint frames, clicks on the
    play button and media events happen, and the [await] of its
    [initVisualizer] settles among them or only after its cleanup. After
    the last cleanup the browser again holds nothing of the widget: no
    repaint request is pending, [close()] has been called on every audio
    context, every object URL is revoked and every audio element is
    without source and without handlers. No media stream and no recorder
    has been touched. An [initVisualizer] that resumes with the closure
    its cleanup has written to changes nothing, wherever it resumes. *)
Theorem widget_cycles_release_everything
    (runs : list (bool * Visualizer.Props * list Lifecycle.Activity))
    (w : Browser.World) (v : Visualizer.State) :
  Lifecycle.Clean w -> Visualizer.canvasRef v = true ->
  let r := foldl Lifecycle.cycle (w, v) runs in
  Lifecycle.Clean (fst r)
  /\ Browser.streams (fst r) = Browser.streams w
  /\ Browser.recorders (fst r) = Browser.recorders w
  /\ forall p w1 v1 c1 w2 v2,
       let c := snd (Visualizer.cleanup (w1, v1, c1)) in
       Visualizer.initVisualizer_resume p (w2, v2, c) = (w2, v2, c).
Proof.
  intros Hc Hcanvas r. subst r.
  assert (Hruns :
    Lifecycle.Clean (fst (foldl Lifecycle.cycle (w, v) runs))
    /\ Browser.streams (fst (foldl Lifecycle.cycle (w, v) runs))
       = Browser.streams w
    /\ Browser.recorders (fst (foldl Lifecycle.cycle (w, v) runs))
       = Browser.recorders w).
  { revert w v Hc Hcanvas.
    induction runs as [|run runs IH]; intros w v Hc Hcanvas.
    - cbn. split; [exact Hc | split; reflexivity].
    - cbn [foldl].
      pose proof (cycle_clean w v run Hc Hcanvas) as (H1 & H2 & H3 & H4).
      destruct (Lifecycle.cycle (w, v) run) as [w1 v1]. cbn [fst snd] in *.
      pose proof (IH w1 v1 H1 H2) as (K1 & K2 & K3).
      split; [exact K1|]. split; congruence. }
  destruct Hruns as (H1 & H2 & H3).
  split; [exact H1|]. split; [exact H2|]. split; [exact H3|].
  intros p w1 v1 c1 w2 v2 c. apply resume_unmounted.
  apply (cleanup_world w1 v1 c1).
Qed.

Lemma widget_cycles_release_everything_witness :
  (Lifecycle.Clean (fst recording)
   /\ Visualizer.canvasRef Visualizer.mount = true)
  /\ Lifecycle.Clean (fst (foldl Lifecycle.cycle
                             (fst recording, Visualizer.mount)
                             Scenarios.four_runs))
  /\ Browser.getTracks (fst (foldl Lifecycle.cycle
                               (fst recording, Visualizer.mount)
                               Scenarios.four_runs)) 0
     = [Browser.live].
Proof.
  pose proof (widget_cycles_release_everything Scenarios.four_runs
                (fst recording) Visualizer.mount clean_recording eq_refl)
    as (H1 & H2 & _).
  split; [split; [exact clean_recording | reflexivity]|].
  split; [exact H1|].
  unfold Browser.getTracks. rewrite H2. reflexivity.
Defined.

(** X16. From a browser that holds nothing of the widget and with the
    canvas mounted, let the effect run for props that record or show a
    file, followed by any repaint frames, clicks on the play button,
    media events and the settling of the [await]. While
    [initVisualizer] is suspended at its [await] no repaint request is
    pending; once it has run to its end the repaint loop holds exactly
    one pending request, the one [requestRef] names, however many frames
    have run. *)
Theorem repaint_loop_has_one_pending_request
    (lagging : bool) (p : Visualizer.Props) (acts : list Lifecycle.Activity)
    (w : Browser.World) (v : Visualizer.State) :
  Lifecycle.Clean w -> Visualizer.canvasRef v = true ->
  Lifecycle.idle p = false ->
  let cur := foldl (Lifecycle.act p) (Lifecycle.begin lagging p (w, v)) acts in
  if snd cur
  then Browser.frames (fst (fst (fst cur))) = []
  else exists id : nat,
         Browser.frames (fst (fst (fst cur))) = [id]
         /\ Visualizer.requestRef (snd (fst (fst cur))) = Some id
         /\ id ≠ 0.
Proof.
  intros Hc Hcanvas Hidle cur. subst cur.
  pose proof (begin_invariant lagging p w v Hc Hcanvas) as (Hinv & _).
  pose proof (acts_invariant p acts _ Hinv) as ([_ _ _ Haw Hl _] & _).
  destruct (snd (foldl (Lifecycle.act p) (Lifecycle.begin lagging p (w, v))
                   acts)).
  - apply Lifecycle.clean_frames, Haw. reflexivity.
  - apply Hl; [reflexivity | exact Hidle].
Qed.

Lemma repaint_loop_has_one_pending_request_witness :
  (Lifecycle.Clean (fst Scenarios.after_recording)
   /\ Visualizer.canvasRef (snd Scenarios.after_recording) = true
   /\ Lifecycle.idle Scenarios.file_props = false)
  /\ Browser.frames
       (fst (fst (fst (foldl (Lifecycle.act Scenarios.file_props)
                         (Lifecycle.begin true Scenarios.file_props
                            Scenarios.after_recording)
                         [Lifecycle.Frame 3; Lifecycle.TogglePlay true]))))
     = []
  /\ exists id : nat,
       Browser.frames
         (fst (fst (fst (foldl (Lifecycle.act Scenarios.file_props)
                           (Lifecycle.begin true Scenarios.file_props
                              Scenarios.after_recording)
                           (Lifecycle.Frame 3 :: Lifecycle.Settle
                              :: Scenarios.busy)))))
       = [id]
       /\ Visualizer.requestRef
            (snd (fst (fst (foldl (Lifecycle.act Scenarios.file_props)
                              (Lifecycle.begin true Scenarios.file_props
                                 Scenarios.after_recording)
                              (Lifecycle.Frame 3 :: Lifecycle.Settle
                                 :: Scenarios.busy)))))
          = Some id
       /\ id ≠ 0.
Proof.
  assert (Hcanvas : Visualizer.canvasRef (snd Scenarios.after_recording) = true)
    by (vm_compute; reflexivity).
  assert (Hidle : Lifecycle.idle Scenarios.file_props = false)
    by (vm_compute; reflexivity).
  split; [split; [exact clean_after_recording | split; assumption]|].
  split.
  - pose proof (repaint_loop_has_one_pending_request true Scenarios.file_props
                  [Lifecycle.Frame 3; Lifecycle.TogglePlay true]
                  (fst Scenarios.after_recording)
                  (snd Scenarios.after_recording)
                  clean_after_recording Hcanvas Hidle) as H.
    cbv zeta in H. rewrite <- surjective_pairing in H.
    assert (Hs : snd (foldl (Lifecycle.act Scenarios.file_props)
                        (Lifecycle.begin true Scenarios.file_props
                           Scenarios.after_recording)
                        [Lifecycle.Frame 3; Lifecycle.TogglePlay true]) = true)
      by (vm_compute; reflexivity).
    rewrite Hs in H. exact H.
  - pose proof (repaint_loop_has_one_pending_request true Scenarios.file_props
                  (Lifecycle.Frame 3 :: Lifecycle.Settle :: Scenarios.busy)
                  (fst Scenarios.after_recording)
                  (snd Scenarios.after_recording)
                  clean_after_recording Hcanvas Hidle) as H.
    cbv zeta in H. rewrite <- surjective_pairing in H.
    assert (Hs : snd (foldl (Lifecycle.act Scenarios.file_props)
                        (Lifecycle.begin true Scenarios.file_props
                           Scenarios.after_recording)
                        (Lifecycle.Frame 3 :: Lifecycle.Settle
                           :: Scenarios.busy)) = false)
      by (vm_compute; reflexivity).
    rewrite Hs in H. exact H.
Defined.

(** X17. From a browser that holds nothing of the widget and with the
    canvas mounted, let the effect run for props with nothing to record
    and no file to show, followed by any repaint frames, clicks, media
    events and the settling of the [await]. At every moment the browser
    still holds nothing of the widget and no repaint request has been
    made. While [initVisualizer] is suspended at its [await] no audio
    context has been created; once it has run to its end it has created
    one, on which [close()] has been called, and [isPlaying] is false. *)
Theorem idle_effect_opens_nothing
    (lagging : bool) (p : Visualizer.Props) (acts : list Lifecycle.Activity)
    (w : Browser.World) (v : Visualizer.State) :
  Lifecycle.Clean w -> Visualizer.canvasRef v = true ->
  Lifecycle.idle p = true ->
  let cur := foldl (Lifecycle.act p) (Lifecycle.begin lagging p (w, v)) acts in
  Lifecycle.Clean (fst (fst (fst cur)))
  /\ Visualizer.requestRef (snd (fst (fst cur))) = Visualizer.requestRef v
  /\ length (Browser.contexts (fst (fst (fst cur))))
     = (if snd cur then length (Browser.contexts w)
        else S (length (Browser.contexts w)))
  /\ (snd cur = false -> Visualizer.isPlaying (snd (fst (fst cur))) = false).
Proof.
  intros Hc Hcanvas Hidle cur. subst cur.
  pose proof (begin_invariant lagging p w v Hc Hcanvas) as (Hinv & _).
  assert (Hstart :
    length (Browser.contexts
              (fst (fst (fst (Lifecycle.begin lagging p (w, v))))))
    = (if snd (Lifecycle.begin lagging p (w, v))
       then length (Browser.contexts w) else S (length (Browser.contexts w)))
    /\ Visualizer.requestRef
         (snd (fst (fst (Lifecycle.begin lagging p (w, v)))))
       = Visualizer.requestRef v).
  { rewrite (begin_cases lagging p w v Hc Hcanvas).
    destruct (Visualizer.reads_open lagging w v);
      [split; reflexivity|].
    pose proof (resume_active p w v Visualizer.fresh Hc Hcanvas eq_refl)
      as (_ & _ & _ & _ & _ & _ & Ri).
    destruct (Ri Hidle) as (_ & _ & Hr & Hl).
    destruct (Visualizer.initVisualizer_resume p (w, v, Visualizer.fresh))
      as [[w' v'] c']. cbn [fst snd] in *. split; assumption. }
  destruct Hstart as [Hlen Hreq].
  pose proof (acts_idle p (length (Browser.contexts w)) acts _ Hidle Hinv Hlen)
    as [Klen Kreq].
  pose proof (acts_invariant p acts _ Hinv) as ([_ _ _ Haw _ Hi] & _).
  split; [|split; [congruence|split; [exact Klen|]]].
  - destruct (snd (foldl (Lifecycle.act p) (Lifecycle.begin lagging p (w, v))
                     acts)).
    + apply Haw. reflexivity.
    + apply Hi; [reflexivity | exact Hidle].
  - intros Hs. apply Hi; [exact Hs | exact Hidle].
Qed.

Lemma idle_effect_opens_nothing_witness :
  (Lifecycle.Clean (fst Scenarios.after_recording)
   /\ Visualizer.canvasRef (snd Scenarios.after_recording) = true
   /\ Lifecycle.idle Scenarios.idle_props = true)
  /\ Lifecycle.Clean
       (fst (fst (fst (foldl (Lifecycle.act Scenarios.idle_props)
                         (Lifecycle.begin true Scenarios.idle_props
                            Scenarios.after_recording)
                         [Lifecycle.Frame 3; Lifecycle.Settle]))))
  /\ length (Browser.contexts
       (fst (fst (fst (foldl (Lifecycle.act Scenarios.idle_props)
                         (Lifecycle.begin true Scenarios.idle_props
                            Scenarios.after_recording)
                         [Lifecycle.Frame 3; Lifecycle.Settle]))))) = 2.
Proof.
  assert (Hcanvas : Visualizer.canvasRef (snd Scenarios.after_recording) = true)
    by (vm_compute; reflexivity).
  assert (Hidle : Lifecycle.idle Scenarios.idle_props = true)
    by (vm_compute; reflexivity).
  split; [split; [exact clean_after_recording | split; assumption]|].
  pose proof (idle_effect_opens_nothing true Scenarios.idle_props
                [Lifecycle.Frame 3; Lifecycle.Settle]
                (fst Scenarios.after_recording) (snd Scenarios.after_recording)
                clean_after_recording Hcanvas Hidle) as H.
  cbv zeta in H. rewrite <- surjective_pairing in H.
  destruct H as (H1 & _ & H3 & _).
  split; [exact H1|].
  rewrite H3. vm_compute. reflexivity.
Defined.

(** ** From the recording to the request *)

Lemma mediaRecorder_ondataavailable_modelData (d : Blob.t) (s : App.State) :
  App.modelData (App.mediaRecorder_ondataavailable d s) = App.modelData s.
Proof.
  unfold App.mediaRecorder_ondataavailable. case_bool_decide; reflexivity.
Qed.

Lemma record_session_modelData
    (n : nat) (datas : list Blob.t) (last : Blob.t)
    (w : Browser.World) (s : App.State) :
  App.modelData (snd (App.record_session n datas last (w, s)))
  = App.modelData s.
Proof.
  unfold App.record_session, App.startRecording.
  rewrite dataavailable_events_chunks.
  unfold App.stopRecording. cbn [App.mediaRecorderRef App.set_chunksRef
    App.set_mediaRecorderRef App.setAudioFile App.setIsRecording
    App.setRecordingStream App.isRecording].
  cbn [Browser.recorders Browser.set_recorders Browser.set_streams].
  rewrite list_lookup_alter_eq, list_lookup_middle by reflexivity.
  cbn [fmap option_fmap option_map Browser.recorded Browser.recording].
  unfold App.stop_task.
  cbn [Browser.recorders Browser.set_recorders Browser.set_streams].
  rewrite list_alter_alter_eq, list_lookup_alter_eq,
    list_lookup_middle by reflexivity.
  cbn [fmap option_fmap option_map Browser.recorded Browser.recording compose].
  unfold App.mediaRecorder_onstop. cbn [snd App.modelData
    App.setRecordingStream App.setAudioFile].
  rewrite mediaRecorder_ondataavailable_modelData. reflexivity.
Qed.

(** X18. A clip that was recorded is sent as [audio/webm], whatever the
    recorder called its chunks: after a whole recording, every request
    of a classification carries the MIME type [audio/webm] and the
    prompt made of the loaded model's content. *)
Theorem recorded_clip_is_sent_as_webm
    (env : Gemini.Platform) (n : nat) (datas : list Blob.t) (last : Blob.t)
    (w : Browser.World) (s : App.State) (m : App.ModelMetadata.t)
    (req : Gemini.Request) :
  App.modelData s = Some m ->
  req ∈ snd (App.runClassification env
               (snd (App.record_session n datas last (w, s)))) ->
  Gemini.mimeTypes req = [js "audio/webm"]
  /\ Gemini.texts req = [Gemini.prompt (App.ModelMetadata.content m)].
Proof.
  intros Hm Hreq.
  pose proof (proj1 (record_session_result n datas last w s)) as Ha.
  pose proof (record_session_modelData n datas last w s) as Hm'.
  rewrite Hm in Hm'. cbv zeta in Ha.
  rewrite (runClassification_unfold env _ _ m Ha Hm') in Hreq.
  cbn [snd] in Hreq.
  apply classify_log_request in Hreq as [b ->].
  split; reflexivity.
Qed.

Lemma recorded_clip_is_sent_as_webm_witness :
  App.modelData loaded = Some notebook
  /\ snd (App.runClassification offline
            (snd (App.record_session 1 [] Scenarios.opus_chunk
                    (Browser.empty, loaded))))
     = [Gemini.request
          {| Blob.bytes := [26; 69; 223; 163]%N; Blob.type := js "audio/webm" |}
          (Some (js "UklGRg==")) (js "{}")]
  /\ Gemini.mimeTypes
       (Gemini.request
          {| Blob.bytes := [26; 69; 223; 163]%N; Blob.type := js "audio/webm" |}
          (Some (js "UklGRg==")) (js "{}"))
     = [js "audio/webm"].
Proof.
  assert (Hlog : snd (App.runClassification offline
            (snd (App.record_session 1 [] Scenarios.opus_chunk
                    (Browser.empty, loaded))))
     = [Gemini.request
          {| Blob.bytes := [26; 69; 223; 163]%N; Blob.type := js "audio/webm" |}
          (Some (js "UklGRg==")) (js "{}")]) by (vm_compute; reflexivity).
  split; [reflexivity|]. split; [exact Hlog|].
  apply (recorded_clip_is_sent_as_webm offline 1 [] Scenarios.opus_chunk
           Browser.empty loaded notebook _ eq_refl).
  rewrite Hlog. apply list_elem_of_singleton. reflexivity.
Defined.
